(** * graphql-codegen-fetcher: the JSON transformer generator

    A shallow embedding of [src/dist/transformer-generator.js]: the detector
    [hasJsonFields], the builder [transformJsonFields] and the two emitters
    [generateOutputTransformer] and [generateInputTransformer], together with
    a small model of the TypeScript expressions that the emitted text
    denotes, so that statements about the generated code (null-safety,
    preservation of untouched fields) can be made about its evaluation.

    Conventions.
    - A JavaScript string is a [string]; one character stands for one code
      unit (field names and markers are ASCII).
    - A JavaScript object used as an ordered mapping is the list of its
      entries in [Object.entries] order.
    - [undefined] and [null] arguments are the first two constructors of
      [Nullable].
    - A thrown exception is the [Throw] constructor of [result]. *)

From Stdlib Require Import String Ascii List Bool Arith ZArith Lia DecimalString.
From Stdlib Require Import Permutation.
Import ListNotations.
Open Scope list_scope.
Open Scope string_scope.

(** ** JavaScript strings *)

Module JsString.

(** The line feed of the template literals. *)
Definition nl : string := String (ascii_of_nat 10) EmptyString.

(** [s.includes(sub)]: [sub] occurs somewhere in [s]. *)
Fixpoint includes (s sub : string) : bool :=
  prefix sub s ||
  match s with
  | EmptyString => false
  | String _ rest => includes rest sub
  end.

(** [s.endsWith(sub)], used only on the specification side. *)
Fixpoint endsWith (s sub : string) : bool :=
  (s =? sub) ||
  match s with
  | EmptyString => false
  | String _ rest => endsWith rest sub
  end.

(** [s.substring(0, s.length - n)]; a negative end index counts as 0,
    which is what truncated subtraction on [nat] gives. *)
Definition dropLast (n : nat) (s : string) : string :=
  substring 0 (String.length s - n) s.

(** [lines.join(sep)]. *)
Definition join (sep : string) (lines : list string) : string :=
  String.concat sep lines.

(** The decimal spelling of an array index. *)
Definition indexKey (i : nat) : string :=
  NilEmpty.string_of_uint (Nat.to_uint i).

(** [Object.entries(s)] for a primitive string [s]: one entry per
    character, keyed by its position. *)
Fixpoint charEntries (i : nat) (s : string) : list (string * string) :=
  match s with
  | EmptyString => []
  | String c rest => (indexKey i, String c EmptyString) :: charEntries (S i) rest
  end.

End JsString.
Import JsString.

(** ** Values that may be absent, and exceptions *)

Inductive Nullable (A : Type) : Type :=
| undefined
| null
| defined (a : A).
Arguments undefined {A}.
Arguments null {A}.
Arguments defined {A} a.

Inductive JsError : Type :=
| TypeErrorNullish      (* a property of, or a conversion of, null or undefined *)
| TypeErrorNotCallable  (* a call of something that is not a function *)
| JsonFailure.          (* JSON.parse or JSON.stringify threw *)

Inductive result (A : Type) : Type :=
| Ok (a : A)
| Throw (e : JsError).
Arguments Ok {A} a.
Arguments Throw {A} e.

Definition bind {A B : Type} (r : result A) (k : A -> result B) : result B :=
  match r with
  | Ok a => k a
  | Throw e => Throw e
  end.

Notation "x <- r ;; k" := (bind r (fun x => k))
  (at level 61, r at next level, right associativity).

Section MapM.
Context {A B : Type} (f : A -> result B).

(** Left-to-right evaluation of a list of computations; the first
    exception aborts the rest. *)
Fixpoint mapM (l : list A) : result (list B) :=
  match l with
  | [] => Ok []
  | a :: rest => b <- f a ;; bs <- mapM rest ;; Ok (b :: bs)
  end.
End MapM.

(** ** The field shape tree

    The type resolver hands over, for every field, either a string naming
    its scalar type or a nested object of fields. *)

#[warnings="-register-all"]
Inductive Fields : Type :=
| Scalar (marker : string)
| Object (children : list (string * Fields)).

(** Induction over shape trees: the property holds of an object as soon
    as it holds of the value of each of its entries. *)

Section FieldsInduction.
Variable P : Fields -> Prop.
Hypothesis P_scalar : forall m, P (Scalar m).
Hypothesis P_object :
  forall children, Forall (fun e => P (snd e)) children -> P (Object children).

Fixpoint Fields_tree_ind (t : Fields) : P t :=
  match t with
  | Scalar m => P_scalar m
  | Object children =>
      P_object children
        ((fix all (l : list (string * Fields)) : Forall (fun e => P (snd e)) l :=
            match l with
            | [] => Forall_nil _
            | e :: rest => Forall_cons e (Fields_tree_ind (snd e)) (all rest)
            end) children)
  end.
End FieldsInduction.

(** The reserved marker. *)
Definition AWSJSON : string := "AWSJSON".

(** [!fields] for a defined value: only the empty string is falsy. *)
Definition falsy (fields : Fields) : bool :=
  match fields with
  | Scalar s => s =? ""
  | Object _ => false
  end.

(** ** The detector (source lines 77-90)

    [hasJsonFieldsIn] is the expression of lines 80-89,
    [Object.entries(fields).map(...).filter(Boolean).length > 0]; the
    entries of a primitive string are its characters.  [hasJsonFields] puts
    the test [!fields] of line 78 in front.  The recursive call of line 83
    is only made on an object, for which that test is false. *)

Fixpoint hasJsonFieldsIn (fields : Fields) : bool :=
  match fields with
  | Scalar s =>
      Nat.ltb 0 (List.length (filter (fun b : bool => b)
        (map (fun e : string * string => snd e =? AWSJSON) (charEntries 0 s))))
  | Object children =>
      Nat.ltb 0 (List.length (filter (fun b : bool => b)
        (map (fun e : string * Fields =>
                let '(_, fieldValue) := e in
                match fieldValue with
                | Object _ => hasJsonFieldsIn fieldValue
                | Scalar m => m =? AWSJSON
                end) children)))
  end.

Definition hasJsonFields (fields : Nullable Fields) : bool :=
  match fields with
  | undefined | null => false
  | defined f => if falsy f then false else hasJsonFieldsIn f
  end.

(** ** The builder (source lines 48-76) *)

Inductive Transformer : Type := parse | stringify.

(** Lines 51-57: the names derived from one key. *)
Definition isMandatory (field : string) : bool := includes field "!".
Definition isArray (field : string) : bool := includes field "[]".

Definition fieldNameOf (field : string) : string :=
  let fieldName := field in
  let fieldName := if isMandatory field then dropLast 1 fieldName else fieldName in
  let fieldName := if isArray field then dropLast 2 fieldName else fieldName in
  fieldName.

Definition fieldNameSingularOf (field : string) : string :=
  dropLast 1 (fieldNameOf field).

Definition fieldPathOf (path field : string) : string :=
  path ++ "." ++ fieldNameOf field.

(** Lines 67-72: the override line of a scalar field. *)
Definition scalarLines (fieldName fieldPath marker : string) (transformer : Transformer)
  : list string :=
  if marker =? AWSJSON then
    match transformer with
    | parse =>
        [fieldName ++ ": " ++ fieldPath ++ " && JSON.parse(" ++ fieldPath
           ++ " as unknown as string),"]
    | stringify =>
        [fieldName ++ ": " ++ fieldPath ++ " && JSON.stringify(" ++ fieldPath
           ++ " as unknown as Record<string, any>),"]
    end
  else [].

(** Line 60: the two opening lines of an array override. *)
Definition arrayOpen (fieldName fieldPath fieldNameSingular : string) : list string :=
  [fieldName ++ ": " ++ fieldPath ++ "?.map((" ++ fieldNameSingular ++ ") => ({";
   "..." ++ fieldNameSingular ++ ","].

(** Line 63: the two opening lines of a nested object override. *)
Definition objectOpen (fieldName fieldPath : string) : list string :=
  [fieldName ++ ": {"; "..." ++ fieldPath ++ ","].

(** The loop of lines 50-74; every iteration appends its lines to
    [stack], so the result is the concatenation of the lines of the
    entries, in order. *)
Fixpoint transformJsonFields (fields : Fields) (path : string) (transformer : Transformer)
  {struct fields} : list string :=
  match fields with
  | Scalar s =>
      flat_map (fun e : string * string =>
                  let '(field, fieldValue) := e in
                  scalarLines (fieldNameOf field) (fieldPathOf path field) fieldValue transformer)
               (charEntries 0 s)
  | Object children =>
      flat_map (fun e : string * Fields =>
                  let '(field, fieldValue) := e in
                  let fieldName := fieldNameOf field in
                  let fieldNameSingular := fieldNameSingularOf field in
                  let fieldPath := fieldPathOf path field in
                  match fieldValue with
                  | Object _ =>
                      if isArray field then
                        (arrayOpen fieldName fieldPath fieldNameSingular
                           ++ transformJsonFields fieldValue (fieldNameSingular ++ "?") transformer
                           ++ ["})),"])%list
                      else
                        (objectOpen fieldName fieldPath
                           ++ transformJsonFields fieldValue (fieldPath ++ "?") transformer
                           ++ ["},"])%list
                  | Scalar m => scalarLines fieldName fieldPath m transformer
                  end)
               children
  end.

(** ** The signature and the two emitters (source lines 4-46)

    The [node] argument of the emitters is never read and is left out. *)

Definition generateQueryVariablesSignature
  (hasRequiredVariables : bool) (operationVariablesTypes : string) : string :=
  "variables" ++ (if hasRequiredVariables then "" else "?") ++ ": " ++ operationVariablesTypes.

Record OutputType : Type := {
  fieldName : string;
  typeName : string;
  fields : Nullable Fields
}.

(** The value of one variable in the variables mapping; only [fields] is
    read.  A mapping of such records is a mapping all of whose entries are
    objects; [generateInputTransformerAny] below is the emitter on a
    mapping whose entries may themselves be null or undefined. *)
Record VariableType : Type := {
  variableFields : Nullable Fields
}.

(** [Object.entries(fields)] on an argument that may be absent. *)
Definition orThrow {A : Type} (x : Nullable A) : result A :=
  match x with
  | defined a => Ok a
  | undefined | null => Throw TypeErrorNullish
  end.

(** [fields || {}]. *)
Definition orEmpty (x : Nullable Fields) : Fields :=
  match x with
  | defined f => if falsy f then Object [] else f
  | undefined | null => Object []
  end.

Definition outputComment
  (operationName operationResultType : string) (outputType : OutputType) : string :=
  nl ++ "/**" ++ nl
  ++ "  * Output transformer function for `" ++ operationName ++ "`." ++ nl
  ++ "  * It extracts the `" ++ fieldName outputType
  ++ "` field from the result and transforms it into a `" ++ typeName outputType
  ++ "` object." ++ nl
  ++ "  * If the object contains JSON fields, it will automatically JSON parse these fields and return a new object." ++ nl
  ++ "  * If the object does not conatain any JSON fields, it will return the orignal object." ++ nl
  ++ "  * @param data " ++ operationResultType ++ " - The data returned from the GraphQL server" ++ nl
  ++ "  * @returns " ++ typeName outputType ++ " - The transformed data" ++ nl
  ++ "  */".

(** The expression after [=>] in the output implementation (lines 18-20). *)
Definition outputBody (outputType : OutputType) : result string :=
  if hasJsonFields (fields outputType) then
    fs <- orThrow (fields outputType) ;;
    Ok (fieldName outputType ++ " && ({..." ++ fieldName outputType ++ ", "
          ++ join nl (transformJsonFields fs (fieldName outputType) parse)
          ++ " }) as " ++ typeName outputType)
  else
    Ok (fieldName outputType ++ " as " ++ typeName outputType).

Definition outputHead (operationName operationResultType : string) (outputType : OutputType)
  : string :=
  "export const " ++ operationName ++ "Output = ({ " ++ fieldName outputType ++ " }: "
    ++ operationResultType ++ ") => ".

Definition generateOutputTransformer
  (operationName operationVariablesTypes operationResultType : string)
  (hasRequiredVariables : bool) (outputType : OutputType) : result string :=
  let comment := outputComment operationName operationResultType outputType in
  body <- outputBody outputType ;;
  let implementation :=
    outputHead operationName operationResultType outputType ++ body ++ ";" in
  Ok (nl ++ comment ++ nl ++ implementation).

Definition inputComment
  (operationName operationVariablesTypes : string) (hasVariables : bool) : string :=
  nl ++ "/**" ++ nl
  ++ "  * Input transformer function for `" ++ operationName ++ "`." ++ nl
  ++ "  * It transforms the fields of the variables into JSON strings." ++ nl
  ++ "  * If the variables contain JSON fields, it will automatically JSON stringify these fields and return a new `variables` object." ++ nl
  ++ "  * If the variables do not conatain any JSON fields, it will return the orignal `variables` object." ++ nl
  ++ "  * If no variables are defined, the function returns `undefined`." ++ nl
  ++ "  * "
  ++ (if hasVariables
      then "@param variables `" ++ operationVariablesTypes ++ "` - The original variables"
      else "") ++ nl
  ++ "  * "
  ++ (if hasVariables
      then "@returns `" ++ operationVariablesTypes ++ "` - The transformed variables"
      else "@returns `undefined`") ++ nl
  ++ "  */".

(** Line 41: the override of one variable.  The lines of the builder are
    interpolated as an array, which JavaScript spells with [,] between the
    elements. *)
Definition variableOverride (e : string * VariableType) : string :=
  let '(field, variable) := e in
  field ++ ": { "
    ++ join "," (transformJsonFields (orEmpty (variableFields variable))
                   ("variables." ++ field) stringify)
    ++ " },".

Definition variableHasJson (e : string * VariableType) : bool :=
  hasJsonFields (variableFields (snd e)).

Definition generateInputTransformer
  (operationName operationVariablesTypes operationResultType : string)
  (hasRequiredVariables : bool) (variablesType : Nullable (list (string * VariableType)))
  : result string :=
  let signature := generateQueryVariablesSignature hasRequiredVariables operationVariablesTypes in
  let hasVariables :=
    match variablesType with
    | defined vs => Nat.ltb 0 (List.length vs)
    | undefined | null => false
    end in
  vs <- orThrow variablesType ;;
  let hasJson := existsb variableHasJson vs in
  let comment := inputComment operationName operationVariablesTypes hasVariables in
  let implementation :=
    if hasVariables then
      "export const " ++ operationName ++ "Input = (" ++ signature ++ ") => "
        ++ (if hasJson then
              "({...variables, "
                ++ join nl (map variableOverride (filter variableHasJson vs))
                ++ " }) as " ++ operationVariablesTypes
            else "variables as " ++ operationVariablesTypes)
        ++ ";"
    else "export const " ++ operationName ++ "Input = () => undefined;" in
  Ok (nl ++ comment ++ nl ++ implementation).

(** ** The expressions that the emitted text denotes

    The builder only ever writes three kinds of override entries, over
    access paths made of a variable followed by [.name] and [?.name] steps.
    [overridesOf] builds them as a syntax tree by the same traversal as
    [transformJsonFields]; [renderOverride] prints a tree as lines, and
    the printed tree is the builder's output (lemma
    [render_overridesOf] below). *)

Inductive Access : Type := Dot | OptDot.

Record Path : Type := {
  root : string;
  steps : list (Access * string)
}.

Definition var (x : string) : Path := {| root := x; steps := [] |}.

(** [extend p safe name]: the path [p.name], or [p?.name] when the text of
    [p] was handed down with a trailing [?]. *)
Definition extend (p : Path) (safe : bool) (name : string) : Path :=
  {| root := root p;
     steps := (steps p ++ [(if safe then OptDot else Dot, name)])%list |}.

#[warnings="-register-all"]
Inductive Override : Type :=
| OJson (name : string) (p : Path) (transformer : Transformer)
    (* name: p && JSON.parse(p as ...),  *)
| ONested (name : string) (p : Path) (body : list Override)
    (* name: { ...p, body },  *)
| OArray (name : string) (p : Path) (x : string) (body : list Override).
    (* name: p?.map((x) => ({ ...x, body })),  *)

Definition scalarOverride (name : string) (p : Path) (marker : string)
  (transformer : Transformer) : list Override :=
  if marker =? AWSJSON then [OJson name p transformer] else [].

Fixpoint overridesOf (fields : Fields) (p : Path) (safe : bool) (transformer : Transformer)
  {struct fields} : list Override :=
  match fields with
  | Scalar s =>
      flat_map (fun e : string * string =>
                  let '(field, fieldValue) := e in
                  scalarOverride (fieldNameOf field) (extend p safe (fieldNameOf field))
                    fieldValue transformer)
               (charEntries 0 s)
  | Object children =>
      flat_map (fun e : string * Fields =>
                  let '(field, fieldValue) := e in
                  let fieldPath := extend p safe (fieldNameOf field) in
                  match fieldValue with
                  | Object _ =>
                      if isArray field then
                        [OArray (fieldNameOf field) fieldPath (fieldNameSingularOf field)
                           (overridesOf fieldValue (var (fieldNameSingularOf field)) true
                              transformer)]
                      else
                        [ONested (fieldNameOf field) fieldPath
                           (overridesOf fieldValue fieldPath true transformer)]
                  | Scalar m => scalarOverride (fieldNameOf field) fieldPath m transformer
                  end)
               children
  end.

Definition accessText (a : Access) : string :=
  match a with
  | Dot => "."
  | OptDot => "?."
  end.

Fixpoint renderSteps (acc : string) (l : list (Access * string)) : string :=
  match l with
  | [] => acc
  | (a, name) :: rest => renderSteps (acc ++ accessText a ++ name) rest
  end.

Definition renderPath (p : Path) : string := renderSteps (root p) (steps p).

Fixpoint renderOverride (o : Override) : list string :=
  match o with
  | OJson name p transformer => scalarLines name (renderPath p) AWSJSON transformer
  | ONested name p body =>
      (objectOpen name (renderPath p) ++ flat_map renderOverride body ++ ["},"])%list
  | OArray name p x body =>
      (arrayOpen name (renderPath p) x ++ flat_map renderOverride body ++ ["})),"])%list
  end.

(** The expression after [=>] of the output implementation. *)
Inductive OutputExpr : Type :=
| OutCast (x : string)                             (* x as T *)
| OutGuarded (x : string) (body : list Override).  (* x && ({...x, body }) as T *)

Definition outputExpr (outputType : OutputType) : OutputExpr :=
  if hasJsonFields (fields outputType) then
    OutGuarded (fieldName outputType)
      (overridesOf (orEmpty (fields outputType)) (var (fieldName outputType)) false parse)
  else OutCast (fieldName outputType).

Definition renderOutputExpr (e : OutputExpr) (ty : string) : string :=
  match e with
  | OutCast x => x ++ " as " ++ ty
  | OutGuarded x body =>
      x ++ " && ({..." ++ x ++ ", " ++ join nl (flat_map renderOverride body)
        ++ " }) as " ++ ty
  end.

(** The input implementation. *)
Inductive InputExpr : Type :=
| InUndefined                                          (* () => undefined *)
| InCast                                               (* (variables) => variables as T *)
| InOverrides (vars : list (string * list Override)).
    (* (variables) => ({...variables, v: { body }, ... }) as T *)

Definition variableOverrides (e : string * VariableType) : string * list Override :=
  let '(field, variable) := e in
  (field, overridesOf (orEmpty (variableFields variable))
            (extend (var "variables") false field) false stringify).

Definition inputExpr (vs : list (string * VariableType)) : InputExpr :=
  if Nat.ltb 0 (List.length vs) then
    if existsb variableHasJson vs then
      InOverrides (map variableOverrides (filter variableHasJson vs))
    else InCast
  else InUndefined.

Definition renderVariable (v : string * list Override) : string :=
  fst v ++ ": { " ++ join "," (flat_map renderOverride (snd v)) ++ " },".

Definition renderInputExpr (operationName signature ty : string) (e : InputExpr) : string :=
  match e with
  | InUndefined => "export const " ++ operationName ++ "Input = () => undefined;"
  | InCast =>
      "export const " ++ operationName ++ "Input = (" ++ signature ++ ") => "
        ++ ("variables as " ++ ty) ++ ";"
  | InOverrides vars =>
      "export const " ++ operationName ++ "Input = (" ++ signature ++ ") => "
        ++ ("({...variables, " ++ join nl (map renderVariable vars) ++ " }) as " ++ ty)
        ++ ";"
  end.

(** ** Evaluation of the generated expressions

    Run-time values.  Only own data properties are modelled: a property
    read on anything but an object yields [undefined], and a read on
    [null] or [undefined] throws.

    What is evaluated is the syntax tree.  Whether the text printed from a
    tree is text that JavaScript reads at all is a separate matter:
    [parsesOverride] below asks it of the names and of the element
    variables, and the lines of a variable joined by commas are looked at
    where the input emitter is. *)

#[warnings="-register-all"]
Inductive value : Type :=
| VUndefined
| VNull
| VBool (b : bool)
| VNumber (n : Z)
| VString (s : string)
| VObject (props : list (string * value))
| VArray (elems : list value).

Definition nullish (v : value) : bool :=
  match v with
  | VUndefined | VNull => true
  | _ => false
  end.

Definition truthy (v : value) : bool :=
  match v with
  | VUndefined | VNull => false
  | VBool b => b
  | VNumber n => negb (Z.eqb n 0)
  | VString s => negb (s =? "")
  | VObject _ | VArray _ => true
  end.

Fixpoint objGet (name : string) (props : list (string * value)) : value :=
  match props with
  | [] => VUndefined
  | (k, v) :: rest => if k =? name then v else objGet name rest
  end.

(** Assignment of a property: an existing key keeps its position. *)
Fixpoint objSet (name : string) (v : value) (props : list (string * value))
  : list (string * value) :=
  match props with
  | [] => [(name, v)]
  | (k, w) :: rest => if k =? name then (k, v) :: rest else (k, w) :: objSet name v rest
  end.

Definition getProp (v : value) (name : string) : value :=
  match v with
  | VObject props => objGet name props
  | _ => VUndefined
  end.

Fixpoint indexed (i : nat) (elems : list value) : list (string * value) :=
  match elems with
  | [] => []
  | e :: rest => (indexKey i, e) :: indexed (S i) rest
  end.

(** The own enumerable properties copied by a spread [...v]. *)
Definition ownEntries (v : value) : list (string * value) :=
  match v with
  | VObject props => props
  | VArray elems => indexed 0 elems
  | VString s => map (fun e => (fst e, VString (snd e))) (charEntries 0 s)
  | _ => []
  end.

(** [{ ...src, k1: v1, ..., kn: vn }]. *)
Definition construct (src props : list (string * value)) : value :=
  VObject (fold_left (fun acc kv => objSet (fst kv) (snd kv) acc) props src).

Definition Env : Type := string -> value.

Definition bindVar (x : string) (v : value) (env : Env) : Env :=
  fun y => if y =? x then v else env y.

(** A chain of property reads.  [?.] on null or undefined ends the whole
    chain with [undefined]; [.] on null or undefined throws. *)
Fixpoint evalSteps (v : value) (l : list (Access * string)) : result value :=
  match l with
  | [] => Ok v
  | (Dot, name) :: rest =>
      if nullish v then Throw TypeErrorNullish else evalSteps (getProp v name) rest
  | (OptDot, name) :: rest =>
      if nullish v then Ok VUndefined else evalSteps (getProp v name) rest
  end.

Definition evalPath (env : Env) (p : Path) : result value :=
  evalSteps (env (root p)) (steps p).

(** [JSON.parse] and [JSON.stringify] belong to the JavaScript runtime;
    [None] stands for a thrown exception. *)
Record Runtime : Type := {
  JSON_parse : value -> option value;
  JSON_stringify : value -> option value
}.

Section Evaluation.
Variable rt : Runtime.

Definition callJson (transformer : Transformer) (v : value) : result value :=
  match match transformer with
        | parse => JSON_parse rt v
        | stringify => JSON_stringify rt v
        end with
  | Some w => Ok w
  | None => Throw JsonFailure
  end.

(** [p && JSON.f(p)]. *)
Definition evalGuarded (transformer : Transformer) (v : value) : result value :=
  if truthy v then callJson transformer v else Ok v.

Fixpoint evalOverride (o : Override) (env : Env) {struct o} : result (string * value) :=
  match o with
  | OJson name p transformer =>
      v <- evalPath env p ;;
      w <- evalGuarded transformer v ;;
      Ok (name, w)
  | ONested name p body =>
      src <- evalPath env p ;;
      props <- mapM (fun o' => evalOverride o' env) body ;;
      Ok (name, construct (ownEntries src) props)
  | OArray name p x body =>
      arr <- evalPath env p ;;
      match arr with
      | VUndefined | VNull => Ok (name, VUndefined)
      | VArray elems =>
          rs <- mapM (fun elem =>
                        props <- mapM (fun o' => evalOverride o' (bindVar x elem env)) body ;;
                        Ok (construct (ownEntries elem) props)) elems ;;
          Ok (name, VArray rs)
      | _ => Throw TypeErrorNotCallable
      end
  end.

Definition evalOverrides (body : list Override) (env : Env)
  : result (list (string * value)) :=
  mapM (fun o => evalOverride o env) body.

Definition evalOutputExpr (e : OutputExpr) (env : Env) : result value :=
  match e with
  | OutCast x => Ok (env x)
  | OutGuarded x body =>
      if truthy (env x) then
        props <- evalOverrides body env ;;
        Ok (construct (ownEntries (env x)) props)
      else Ok (env x)
  end.

(** The value returned by the emitted input function when it is called
    with [variables]: the value of the tree.  The text that the emitter
    prints from the tree joins the lines of a variable by commas, and is
    not read by JavaScript when a variable has more than one line. *)
Definition evalInputExpr (e : InputExpr) (variables : value) : result value :=
  match e with
  | InUndefined => Ok VUndefined
  | InCast => Ok variables
  | InOverrides vars =>
      let env := bindVar "variables" variables (fun _ => VUndefined) in
      props <- mapM (fun v : string * list Override =>
                       ps <- evalOverrides (snd v) env ;;
                       Ok (fst v, construct [] ps)) vars ;;
      Ok (construct (ownEntries variables) props)
  end.

End Evaluation.

(** A value is serializable for a runtime when [JSON.stringify] gives a
    non-empty text from which [JSON.parse] gives the value back. *)
Definition Serializable (rt : Runtime) (v : value) : Prop :=
  exists s, JSON_stringify rt v = Some (VString s) /\ s <> ""
            /\ JSON_parse rt (VString s) = Some v.

(** A runtime that knows the JSON texts of the empty object, the empty
    array and the literals; everything else throws. *)
Definition literalRuntime : Runtime :=
  {| JSON_stringify := fun v =>
       match v with
       | VObject [] => Some (VString "{}")
       | VArray [] => Some (VString "[]")
       | VNull => Some (VString "null")
       | VBool true => Some (VString "true")
       | VBool false => Some (VString "false")
       | _ => None
       end;
     JSON_parse := fun v =>
       match v with
       | VString s =>
           if s =? "{}" then Some (VObject [])
           else if s =? "[]" then Some (VArray [])
           else if s =? "null" then Some VNull
           else if s =? "true" then Some (VBool true)
           else if s =? "false" then Some (VBool false)
           else None
       | _ => None
       end |}.

(** ** Sample inputs *)

(** Example A of the specification: no JSON field. *)
Definition exampleA : OutputType :=
  {| fieldName := "getNode"; typeName := "Node";
     fields := defined (Object [("status", Scalar "String")]) |}.

(** Example B of the specification: one JSON field. *)
Definition exampleB : OutputType :=
  {| fieldName := "getNode"; typeName := "Node";
     fields := defined (Object [("payload", Scalar "AWSJSON")]) |}.

(** An input object with an identifier and a JSON field, as the single,
    optional variable of a mutation. *)
Definition inputWithJson : list (string * VariableType) :=
  [("input",
    {| variableFields := defined (Object [("id!", Scalar "ID"); ("data", Scalar "AWSJSON")]) |})].

(** ** Notions of the specification *)

(** Some scalar leaf reachable from the tree carries the JSON marker. *)
Inductive JsonLeaf : Fields -> Prop :=
| JsonLeaf_here : JsonLeaf (Scalar AWSJSON)
| JsonLeaf_below (field : string) (child : Fields) (children : list (string * Fields)) :
    In (field, child) children -> JsonLeaf child -> JsonLeaf (Object children).

(** An annotated name: the base name, then the array marker, then the
    mandatory marker. *)
Definition annotate (base : string) (array mandatory : bool) : string :=
  base ++ (if array then "[]" else "") ++ (if mandatory then "!" else "").

(** Decoding of a key as the specification words it: a trailing [!] is
    stripped, then a trailing [[]]. *)
Definition stripTrailing (field : string) : string * bool * bool :=
  let mandatory := endsWith field "!" in
  let rest := if mandatory then dropLast 1 field else field in
  let array := endsWith rest "[]" in
  let base := if array then dropLast 2 rest else rest in
  (base, mandatory, array).

(** Decoding of a key as the builder does it. *)
Definition decodeKey (field : string) : string * bool * bool :=
  (fieldNameOf field, isMandatory field, isArray field).

(** Two trees of the same structure and the same markers whose keys are
    related, position by position, by [R]. *)
Inductive Similar (R : string -> string -> Prop) : Fields -> Fields -> Prop :=
| Similar_scalar (m : string) : Similar R (Scalar m) (Scalar m)
| Similar_nil : Similar R (Object []) (Object [])
| Similar_cons (k k' : string) (v v' : Fields) (cs cs' : list (string * Fields)) :
    R k k' -> Similar R v v' -> Similar R (Object cs) (Object cs') ->
    Similar R (Object ((k, v) :: cs)) (Object ((k', v') :: cs')).

(** Any renaming of keys. *)
Definition AnyKey (k k' : string) : Prop := True.

(** The mandatory marker put on, or taken off, a name; [ToggleAny] for
    every name, [ToggleKey] for the names that hold no [!] themselves. *)
Inductive ToggleAny : string -> string -> Prop :=
| ToggleAny_same (k : string) : ToggleAny k k
| ToggleAny_on (name : string) : ToggleAny name (name ++ "!")
| ToggleAny_off (name : string) : ToggleAny (name ++ "!") name.

Inductive ToggleKey : string -> string -> Prop :=
| ToggleKey_same (k : string) : ToggleKey k k
| ToggleKey_on (name : string) : isMandatory name = false -> ToggleKey name (name ++ "!")
| ToggleKey_off (name : string) : isMandatory name = false -> ToggleKey (name ++ "!") name.

(** The test that the detector applies to one entry value (lines 82-87). *)
Definition childHasJson (fieldValue : Fields) : bool :=
  match fieldValue with
  | Object _ => hasJsonFieldsIn fieldValue
  | Scalar m => m =? AWSJSON
  end.

(** The name under which an override entry is written. *)
Definition overrideName (o : Override) : string :=
  match o with
  | OJson name _ _ | ONested name _ _ | OArray name _ _ _ => name
  end.

(** The access path that an override entry reads first. *)
Definition overridePath (o : Override) : Path :=
  match o with
  | OJson _ p _ | ONested _ p _ | OArray _ p _ _ => p
  end.

(** An evaluation is null-safe when it does not throw for having read a
    property of null or undefined. *)
Definition NullSafe {A : Type} (r : result A) : Prop := r <> Throw TypeErrorNullish.

(** A path is ready for the builder when it evaluates, and either its text
    is handed down with a trailing [?] or its value is neither null nor
    undefined. *)
Definition Ready (env : Env) (p : Path) (safe : bool) : Prop :=
  exists v, evalPath env p = Ok v /\ (safe = true \/ nullish v = false).

(** ** The input emitter on a mapping whose entries may be absent

    Lines 27, 40 and 41 read [variablesType[field].fields]; the read throws
    when the entry itself is null or undefined.  [some] stops at the first
    entry that answers true, [filter] and [map] visit every entry. *)

Definition entryFields (entry : Nullable VariableType) : result (Nullable Fields) :=
  match entry with
  | defined variable => Ok (variableFields variable)
  | undefined | null => Throw TypeErrorNullish
  end.

Section Callbacks.
Context {A : Type} (f : A -> result bool).

(** [l.some(f)]. *)
Fixpoint someM (l : list A) : result bool :=
  match l with
  | [] => Ok false
  | a :: rest => b <- f a ;; if b then Ok true else someM rest
  end.

(** [l.filter(f)]. *)
Fixpoint filterM (l : list A) : result (list A) :=
  match l with
  | [] => Ok []
  | a :: rest => b <- f a ;; kept <- filterM rest ;; Ok (if b then a :: kept else kept)
  end.
End Callbacks.

Definition entryHasJson (e : string * Nullable VariableType) : result bool :=
  fs <- entryFields (snd e) ;; Ok (hasJsonFields fs).

Definition entryOverride (e : string * Nullable VariableType) : result string :=
  fs <- entryFields (snd e) ;;
  Ok (fst e ++ ": { "
        ++ join "," (transformJsonFields (orEmpty fs) ("variables." ++ fst e) stringify)
        ++ " },").

Definition generateInputTransformerAny
  (operationName operationVariablesTypes operationResultType : string)
  (hasRequiredVariables : bool)
  (variablesType : Nullable (list (string * Nullable VariableType)))
  : result string :=
  let signature := generateQueryVariablesSignature hasRequiredVariables operationVariablesTypes in
  let hasVariables :=
    match variablesType with
    | defined vs => Nat.ltb 0 (List.length vs)
    | undefined | null => false
    end in
  vs <- orThrow variablesType ;;
  hasJson <- someM entryHasJson vs ;;
  let comment := inputComment operationName operationVariablesTypes hasVariables in
  implementation <-
    (if hasVariables then
       body <- (if hasJson then
                  kept <- filterM entryHasJson vs ;;
                  overrides <- mapM entryOverride kept ;;
                  Ok ("({...variables, " ++ join nl overrides ++ " }) as "
                        ++ operationVariablesTypes)
                else Ok ("variables as " ++ operationVariablesTypes)) ;;
       Ok ("export const " ++ operationName ++ "Input = (" ++ signature ++ ") => "
             ++ body ++ ";")
     else Ok ("export const " ++ operationName ++ "Input = () => undefined;")) ;;
  Ok (nl ++ comment ++ nl ++ implementation).

(** A mapping of records seen as a mapping of entries that are all
    there. *)
Definition present (e : string * VariableType) : string * Nullable VariableType :=
  (fst e, defined (snd e)).

(** ** Which printed entries JavaScript reads

    Names as the generated module needs them, for names written in ASCII:
    a property name is an identifier name; a variable is an identifier
    name that is no reserved word of a module in strict mode. *)

Definition identifierStart (c : ascii) : bool :=
  let n := nat_of_ascii c in
  (Nat.leb 65 n && Nat.leb n 90) || (Nat.leb 97 n && Nat.leb n 122)
  || Nat.eqb n 95 || Nat.eqb n 36.

Definition identifierPart (c : ascii) : bool :=
  let n := nat_of_ascii c in
  identifierStart c || (Nat.leb 48 n && Nat.leb n 57).

Fixpoint allChars (f : ascii -> bool) (s : string) : bool :=
  match s with
  | EmptyString => true
  | String c rest => f c && allChars f rest
  end.

Definition identifierName (s : string) : bool :=
  match s with
  | EmptyString => false
  | String c rest => identifierStart c && allChars identifierPart rest
  end.

Definition reservedWords : list string :=
  ["break"; "case"; "catch"; "class"; "const"; "continue"; "debugger"; "default";
   "delete"; "do"; "else"; "enum"; "export"; "extends"; "false"; "finally"; "for";
   "function"; "if"; "import"; "in"; "instanceof"; "new"; "null"; "return"; "super";
   "switch"; "this"; "throw"; "true"; "try"; "typeof"; "var"; "void"; "while"; "with";
   "implements"; "interface"; "let"; "package"; "private"; "protected"; "public";
   "static"; "yield"; "await"; "eval"; "arguments"].

Definition bindingIdentifier (s : string) : bool :=
  identifierName s && negb (existsb (String.eqb s) reservedWords).

Definition parsesPath (p : Path) : bool :=
  bindingIdentifier (root p)
  && forallb (fun step : Access * string => identifierName (snd step)) (steps p).

(** The printed entry is read by JavaScript when its names are property
    names, its paths start at a variable, and the parameter of every
    arrow function is a variable. *)
Fixpoint parsesOverride (o : Override) : bool :=
  match o with
  | OJson name p _ => identifierName name && parsesPath p
  | ONested name p body =>
      identifierName name && parsesPath p && forallb parsesOverride body
  | OArray name p x body =>
      identifierName name && parsesPath p && bindingIdentifier x
      && forallb parsesOverride body
  end.

(** ** Measures of shape trees and of emitted lines *)

(** The number of object nodes strictly below the root. *)
Fixpoint objectCount (fields : Fields) : nat :=
  match fields with
  | Scalar _ => 0
  | Object children =>
      list_sum (map (fun e : string * Fields =>
                       let '(_, fieldValue) := e in
                       match fieldValue with
                       | Object _ => S (objectCount fieldValue)
                       | Scalar _ => 0
                       end) children)
  end.

(** The number of scalar leaves below the root that carry the marker. *)
Fixpoint jsonCount (fields : Fields) : nat :=
  match fields with
  | Scalar _ => 0
  | Object children =>
      list_sum (map (fun e : string * Fields =>
                       let '(_, fieldValue) := e in
                       match fieldValue with
                       | Object _ => jsonCount fieldValue
                       | Scalar m => if m =? AWSJSON then 1 else 0
                       end) children)
  end.

(** The tree without its scalar leaves of any other type than the marker,
    at every depth. *)
Fixpoint prune (fields : Fields) : Fields :=
  match fields with
  | Scalar m => Scalar m
  | Object children =>
      Object (flat_map (fun e : string * Fields =>
                          let '(field, fieldValue) := e in
                          match fieldValue with
                          | Object _ => [(field, prune fieldValue)]
                          | Scalar m => if m =? AWSJSON then [(field, Scalar m)] else []
                          end) children)
  end.

(** An entry that makes the builder write nothing: a scalar of another
    type than the marker. *)
Definition silent (e : string * Fields) : bool :=
  match snd e with
  | Object _ => false
  | Scalar m => negb (m =? AWSJSON)
  end.

(** The override line of a JSON field (lines 69 and 71). *)
Definition jsonLine (name path : string) (transformer : Transformer) : string :=
  match transformer with
  | parse => name ++ ": " ++ path ++ " && JSON.parse(" ++ path ++ " as unknown as string),"
  | stringify =>
      name ++ ": " ++ path ++ " && JSON.stringify(" ++ path
        ++ " as unknown as Record<string, any>),"
  end.

(** Two lines that are the same, or the two override lines of one JSON
    field at one path. *)
Definition SameField (decoded encoded : string) : Prop :=
  decoded = encoded
  \/ exists name path, decoded = jsonLine name path parse
                       /\ encoded = jsonLine name path stringify.

(** A line that ends in a comma. *)
Definition EndsComma (line : string) : Prop := exists body, line = body ++ ",".

(** A list of lines in which some line but the last ends in a comma. *)
Definition CommaBeforeLine (lines : list string) : Prop :=
  exists (before : list string) (line : string) (next : string) (after : list string),
    lines = (before ++ line :: next :: after)%list /\ EndsComma line.

(** * Properties *)

(** ** Strings *)

Module JsStringFacts.

Lemma append_assoc (a b c : string) : (a ++ b) ++ c = a ++ (b ++ c).
Proof. induction a as [|x a IH]; simpl; [reflexivity | now rewrite IH]. Qed.

Lemma append_nil_r (a : string) : a ++ "" = a.
Proof. induction a as [|x a IH]; simpl; [reflexivity | now rewrite IH]. Qed.

Lemma length_append (a b : string) :
  String.length (a ++ b) = String.length a + String.length b.
Proof. induction a as [|x a IH]; simpl; [reflexivity | now rewrite IH]. Qed.

Lemma substring_prefix (a b : string) : substring 0 (String.length a) (a ++ b) = a.
Proof.
  induction a as [|x a IH]; simpl.
  - now destruct b.
  - now rewrite IH.
Qed.

Lemma dropLast_append (a b : string) : dropLast (String.length b) (a ++ b) = a.
Proof.
  unfold dropLast. rewrite length_append.
  replace (String.length a + String.length b - String.length b) with (String.length a) by lia.
  apply substring_prefix.
Qed.

Lemma dropLast_bang (a : string) : dropLast 1 (a ++ "!") = a.
Proof. exact (dropLast_append a "!"). Qed.

Lemma dropLast_brackets (a : string) : dropLast 2 (a ++ "[]") = a.
Proof. exact (dropLast_append a "[]"). Qed.

Lemma prefix_nil (s : string) : prefix "" s = true.
Proof. now destruct s. Qed.

Lemma prefix_refl (s : string) : prefix s s = true.
Proof.
  induction s as [|x s IH]; simpl; [reflexivity|].
  destruct (ascii_dec x x); [assumption | congruence].
Qed.

Lemma prefix_append (sub a b : string) : prefix sub a = true -> prefix sub (a ++ b) = true.
Proof.
  revert sub. induction a as [|x a IH]; intros [|y sub]; simpl; try congruence.
  - intros _. apply prefix_nil.
  - destruct (ascii_dec y x); [apply IH | congruence].
Qed.

Lemma includes_append_l (a b sub : string) :
  includes a sub = true -> includes (a ++ b) sub = true.
Proof.
  induction a as [|x a IH]; simpl.
  - rewrite orb_false_r. intros H. destruct sub; [|discriminate].
    destruct b; reflexivity.
  - intros H. apply orb_true_iff in H as [H|H]; apply orb_true_iff.
    + left. exact (prefix_append sub (String x a) b H).
    + right. now apply IH.
Qed.

Lemma includes_append_r (a b sub : string) :
  includes b sub = true -> includes (a ++ b) sub = true.
Proof.
  intros H. induction a as [|x a IH]; simpl; [assumption|].
  rewrite IH. apply orb_true_r.
Qed.

(** A one-character needle is in [a ++ b] exactly when it is in [a] or in
    [b]. *)
Lemma includes_char_append (a b : string) (c : ascii) :
  includes (a ++ b) (String c "") = includes a (String c "") || includes b (String c "").
Proof.
  induction a as [|x a IH]; [reflexivity|].
  cbn [append includes]. rewrite IH. cbn [prefix].
  destruct (ascii_dec c x); [|reflexivity].
  now rewrite !prefix_nil.
Qed.

(** Putting the mandatory marker behind a name neither creates nor
    destroys an array marker. *)
Lemma includes_brackets_bang (a : string) : includes (a ++ "!") "[]" = includes a "[]".
Proof.
  induction a as [|x a IH]; [reflexivity|].
  cbn [append includes]. rewrite IH. f_equal.
  cbn [prefix]. destruct (ascii_dec "[" x); [|reflexivity].
  destruct a as [|y a]; [reflexivity|].
  cbn [append prefix]. destruct (ascii_dec "]" y); [|reflexivity].
  now rewrite !prefix_nil.
Qed.

Lemma endsWith_append (a b : string) : endsWith (a ++ b) b = true.
Proof.
  induction a as [|x a IH]; cbn [append].
  - destruct b; cbn [endsWith]; now rewrite String.eqb_refl.
  - cbn [endsWith]. rewrite IH. apply orb_true_r.
Qed.

Lemma endsWith_includes (s sub : string) :
  endsWith s sub = true -> includes s sub = true.
Proof.
  induction s as [|x s IH]; cbn [endsWith includes]; intros H;
    apply orb_true_iff in H as [H|H].
  - apply String.eqb_eq in H. now subst.
  - discriminate.
  - apply String.eqb_eq in H. subst. now rewrite prefix_refl.
  - rewrite (IH H). apply orb_true_r.
Qed.

Lemma not_includes_not_endsWith (s sub : string) :
  includes s sub = false -> endsWith s sub = false.
Proof.
  intros H. destruct (endsWith s sub) eqn:E; [|reflexivity].
  apply endsWith_includes in E. congruence.
Qed.

(** No single character is the seven-character marker. *)
Lemma char_is_not_marker (c : ascii) : (String c "" =? AWSJSON) = false.
Proof. unfold AWSJSON. simpl. apply andb_false_r. Qed.

End JsStringFacts.
Import JsStringFacts.

(** ** Lists *)

Lemma flat_map_flat_map {A B C : Type} (f : B -> list C) (g : A -> list B) (l : list A) :
  flat_map f (flat_map g l) = flat_map (fun a => flat_map f (g a)) l.
Proof.
  induction l as [|a l IH]; simpl; [reflexivity|].
  now rewrite flat_map_app, IH.
Qed.

Lemma flat_map_ext_Forall {A B : Type} (f g : A -> list B) (l : list A) :
  Forall (fun a => f a = g a) l -> flat_map f l = flat_map g l.
Proof. induction 1 as [|a l H _ IH]; simpl; [reflexivity | now rewrite H, IH]. Qed.

(** ** The printed syntax tree is the builder's output *)

Lemma renderSteps_snoc (acc : string) (l : list (Access * string)) (a : Access) (name : string) :
  renderSteps acc (l ++ [(a, name)]) = renderSteps acc l ++ accessText a ++ name.
Proof.
  revert acc. induction l as [|[b m] l IH]; intros acc; simpl; [reflexivity | apply IH].
Qed.

Lemma renderPath_extend (p : Path) (safe : bool) (field : string) :
  renderPath (extend p safe (fieldNameOf field))
  = fieldPathOf (renderPath p ++ (if safe then "?" else "")) field.
Proof.
  unfold renderPath, extend, fieldPathOf. simpl.
  rewrite renderSteps_snoc, append_assoc. now destruct safe.
Qed.

Lemma render_scalarOverride (name : string) (p : Path) (m : string) (t : Transformer) :
  flat_map renderOverride (scalarOverride name p m t) = scalarLines name (renderPath p) m t.
Proof.
  unfold scalarOverride, scalarLines.
  destruct (m =? AWSJSON); [|reflexivity].
  destruct t; reflexivity.
Qed.

Lemma render_overridesOf (fields : Fields) :
  forall (p : Path) (safe : bool) (t : Transformer),
    flat_map renderOverride (overridesOf fields p safe t)
    = transformJsonFields fields (renderPath p ++ (if safe then "?" else "")) t.
Proof.
  induction fields as [s | children IH] using Fields_tree_ind; intros p safe t;
    cbn [overridesOf transformJsonFields]; rewrite flat_map_flat_map;
    apply flat_map_ext_Forall.
  - apply Forall_forall. intros [field c] _.
    now rewrite render_scalarOverride, renderPath_extend.
  - induction IH as [|[field fieldValue] rest Hv _ IHrest]; constructor; [|exact IHrest].
    cbn [snd] in Hv. destruct fieldValue as [m | sub].
    + now rewrite render_scalarOverride, renderPath_extend.
    + destruct (isArray field); cbn [flat_map renderOverride]; rewrite app_nil_r, Hv.
      * now rewrite renderPath_extend.
      * now rewrite !renderPath_extend.
Qed.

(** ** The detector *)

Lemma positive_count_existsb {A : Type} (f : A -> bool) (l : list A) :
  Nat.ltb 0 (List.length (filter (fun b : bool => b) (map f l))) = existsb f l.
Proof.
  induction l as [|a l IH]; [reflexivity|].
  cbn [map filter existsb]. destruct (f a); [reflexivity | exact IH].
Qed.

Lemma existsb_pointwise {A : Type} (f g : A -> bool) (l : list A) :
  (forall a, f a = g a) -> existsb f l = existsb g l.
Proof. intros H. induction l as [|a l IH]; simpl; [reflexivity | now rewrite H, IH]. Qed.

Lemma hasJsonFieldsIn_object (children : list (string * Fields)) :
  hasJsonFieldsIn (Object children) = existsb (fun e => childHasJson (snd e)) children.
Proof.
  cbn [hasJsonFieldsIn]. rewrite positive_count_existsb.
  apply existsb_pointwise. intros [field [m | sub]]; reflexivity.
Qed.

Lemma hasJsonFieldsIn_scalar (s : string) : hasJsonFieldsIn (Scalar s) = false.
Proof.
  cbn [hasJsonFieldsIn]. rewrite positive_count_existsb.
  generalize 0. induction s as [|c s IH]; intros i; [reflexivity|].
  cbn [charEntries existsb snd]. now rewrite char_is_not_marker, IH.
Qed.

Lemma childHasJson_iff (t : Fields) : childHasJson t = true <-> JsonLeaf t.
Proof.
  induction t as [m | children IH] using Fields_tree_ind.
  - cbn [childHasJson]. split.
    + intros H. apply String.eqb_eq in H. subst. constructor.
    + intros H. inversion H. reflexivity.
  - cbn [childHasJson]. rewrite hasJsonFieldsIn_object, existsb_exists.
    rewrite Forall_forall in IH. split.
    + intros [[field child] [Hin Hc]].
      apply (JsonLeaf_below field child children Hin). now apply (IH _ Hin).
    + intros H. inversion H as [|field child cs Hin Hc]; subst.
      exists (field, child). split; [assumption|]. now apply (IH _ Hin).
Qed.

(** C3, as amended.  On a fields mapping the detector answers true exactly
    when some scalar leaf below it carries the marker AWSJSON; it answers
    false on an undefined or null argument; and it answers false on a bare
    scalar, whatever its marker, because it only looks at the entries of its
    argument. *)
Theorem hasJsonFields_on_mappings :
  (forall children : list (string * Fields),
      hasJsonFields (defined (Object children)) = true <-> JsonLeaf (Object children))
  /\ hasJsonFields undefined = false
  /\ hasJsonFields null = false
  /\ (forall marker : string, hasJsonFields (defined (Scalar marker)) = false).
Proof.
  repeat split.
  - intros H. now apply (childHasJson_iff (Object children)).
  - intros H. now apply (childHasJson_iff (Object children)).
  - intros marker. cbn [hasJsonFields falsy].
    destruct (marker =? ""); [reflexivity | apply hasJsonFieldsIn_scalar].
Qed.

(** C3, as stated, fails on the tree that is a single marked leaf: the leaf
    is reachable and carries AWSJSON, yet the detector answers false. *)
Lemma hasJsonFields_misses_bare_marker :
  JsonLeaf (Scalar AWSJSON) /\ hasJsonFields (defined (Scalar AWSJSON)) = false.
Proof. split; [constructor | reflexivity]. Qed.

(** ** Decoding of annotated names *)

Lemma isMandatory_annotate (base : string) (array mandatory : bool) :
  isMandatory base = false -> isMandatory (annotate base array mandatory) = mandatory.
Proof.
  unfold isMandatory, annotate. intros H.
  rewrite !includes_char_append, H. now destruct array, mandatory.
Qed.

Lemma isArray_annotate (base : string) (array mandatory : bool) :
  isArray base = false -> isArray (annotate base array mandatory) = array.
Proof.
  unfold isArray, annotate. intros H. destruct array.
  - apply includes_append_r. now destruct mandatory.
  - cbn [append]. destruct mandatory.
    + now rewrite includes_brackets_bang.
    + now rewrite append_nil_r.
Qed.

Lemma annotate_mandatory (base : string) (array : bool) :
  annotate base array true = (base ++ (if array then "[]" else "")) ++ "!".
Proof. unfold annotate. now rewrite append_assoc. Qed.

Lemma annotate_optional (base : string) (array : bool) :
  annotate base array false = base ++ (if array then "[]" else "").
Proof. unfold annotate. destruct array; cbn [append]; [reflexivity|]. now rewrite append_nil_r. Qed.

Lemma dropLast_array (base : string) (array : bool) :
  (if array then dropLast 2 (base ++ (if array then "[]" else ""))
   else base ++ (if array then "[]" else "")) = base.
Proof.
  destruct array.
  - apply dropLast_brackets.
  - apply append_nil_r.
Qed.

Lemma fieldNameOf_annotate (base : string) (array mandatory : bool) :
  isMandatory base = false -> isArray base = false ->
  fieldNameOf (annotate base array mandatory) = base.
Proof.
  intros Hm Ha. unfold fieldNameOf.
  rewrite (isMandatory_annotate base array mandatory Hm).
  rewrite (isArray_annotate base array mandatory Ha).
  destruct mandatory.
  - rewrite annotate_mandatory.
    rewrite dropLast_bang. apply dropLast_array.
  - rewrite annotate_optional. apply dropLast_array.
Qed.

Lemma stripTrailing_annotate (base : string) (array mandatory : bool) :
  isMandatory base = false -> isArray base = false ->
  stripTrailing (annotate base array mandatory) = (base, mandatory, array).
Proof.
  intros Hm Ha. unfold stripTrailing.
  assert (E1 : endsWith (annotate base array mandatory) "!" = mandatory).
  { destruct mandatory.
    - rewrite annotate_mandatory. apply endsWith_append.
    - apply not_includes_not_endsWith. exact (isMandatory_annotate base array false Hm). }
  rewrite E1.
  assert (E2 : (if mandatory then dropLast 1 (annotate base array mandatory)
                else annotate base array mandatory)
               = base ++ (if array then "[]" else "")).
  { destruct mandatory.
    - rewrite annotate_mandatory. apply dropLast_bang.
    - apply annotate_optional. }
  rewrite E2.
  assert (E3 : endsWith (base ++ (if array then "[]" else "")) "[]" = array).
  { destruct array.
    - apply endsWith_append.
    - rewrite append_nil_r. apply not_includes_not_endsWith. exact Ha. }
  rewrite E3. now rewrite dropLast_array.
Qed.

(** C7, as amended.  For a key made of a base name that holds neither [!]
    nor [[]], followed by the optional array marker and the optional
    mandatory marker, the builder recovers the base name and both flags,
    as stripping the trailing markers does; the child path is the base
    path, a dot and the base name, and the element variable is the base
    name without its last character. *)
Theorem annotated_key_is_decoded (base path : string) (array mandatory : bool) :
  isMandatory base = false ->
  isArray base = false ->
  decodeKey (annotate base array mandatory) = (base, mandatory, array)
  /\ decodeKey (annotate base array mandatory) = stripTrailing (annotate base array mandatory)
  /\ fieldPathOf path (annotate base array mandatory) = path ++ "." ++ base
  /\ fieldNameSingularOf (annotate base array mandatory) = dropLast 1 base.
Proof.
  intros Hm Ha.
  assert (D : decodeKey (annotate base array mandatory) = (base, mandatory, array)).
  { unfold decodeKey.
    now rewrite fieldNameOf_annotate, isMandatory_annotate, isArray_annotate. }
  repeat split.
  - exact D.
  - now rewrite D, stripTrailing_annotate.
  - unfold fieldPathOf. now rewrite fieldNameOf_annotate.
  - unfold fieldNameSingularOf. now rewrite fieldNameOf_annotate.
Qed.

(** Example E of the specification: the key [tags[]!]. *)
Lemma annotated_key_tags :
  annotate "tags" true true = "tags[]!"
  /\ decodeKey "tags[]!" = ("tags", true, true)
  /\ decodeKey "tags[]!" = stripTrailing "tags[]!"
  /\ fieldPathOf "data" "tags[]!" = "data.tags"
  /\ fieldNameSingularOf "tags[]!" = "tag".
Proof.
  split; [reflexivity|].
  exact (annotated_key_is_decoded "tags" "data" true true eq_refl eq_refl).
Defined.

(** C7, as stated, fails on a key that holds a [!] before its end: nothing
    trails, so stripping leaves the key whole, but the builder finds the
    [!] inside, sets the mandatory flag and drops the last character. *)
Lemma marker_inside_key_is_stripped :
  stripTrailing "a!b" = ("a!b", false, false)
  /\ decodeKey "a!b" = ("a!", true, false)
  /\ decodeKey "a!b" <> stripTrailing "a!b".
Proof. repeat split. discriminate. Qed.

(** ** Keys only matter through what the builder decodes from them *)

Lemma transformJsonFields_cons (field : string) (fieldValue : Fields)
  (children : list (string * Fields)) (path : string) (t : Transformer) :
  transformJsonFields (Object ((field, fieldValue) :: children)) path t
  = (transformJsonFields (Object [(field, fieldValue)]) path t
       ++ transformJsonFields (Object children) path t)%list.
Proof. cbn [transformJsonFields flat_map]. now rewrite app_nil_r. Qed.

Lemma transformJsonFields_app (pre post : list (string * Fields)) (path : string)
  (t : Transformer) :
  transformJsonFields (Object (pre ++ post)) path t
  = (transformJsonFields (Object pre) path t ++ transformJsonFields (Object post) path t)%list.
Proof. cbn [transformJsonFields]. apply flat_map_app. Qed.

Lemma Similar_same_kind (R : string -> string -> Prop) (v v' : Fields) :
  Similar R v v' ->
  (exists m, v = Scalar m /\ v' = Scalar m)
  \/ (exists cs cs', v = Object cs /\ v' = Object cs').
Proof. intros H. destruct H; [left | right | right]; eauto. Qed.

Section DecodedKeys.
Variable R : string -> string -> Prop.
Hypothesis R_fieldName : forall k k', R k k' -> fieldNameOf k = fieldNameOf k'.
Hypothesis R_isArray : forall k k', R k k' -> isArray k = isArray k'.

Lemma entry_lines_similar (k k' : string) (v v' : Fields) (path : string) (t : Transformer) :
  R k k' -> Similar R v v' ->
  (forall path' t', transformJsonFields v path' t' = transformJsonFields v' path' t') ->
  transformJsonFields (Object [(k, v)]) path t = transformJsonFields (Object [(k', v')]) path t.
Proof.
  intros Hk Hv IH. cbn [transformJsonFields flat_map].
  unfold fieldNameSingularOf, fieldPathOf.
  rewrite (R_fieldName k k' Hk), (R_isArray k k' Hk).
  destruct (Similar_same_kind R v v' Hv) as [[m [-> ->]] | [cs [cs' [-> ->]]]].
  - reflexivity.
  - now rewrite !IH.
Qed.

Lemma transformJsonFields_similar (t t' : Fields) :
  Similar R t t' ->
  forall (path : string) (tr : Transformer),
    transformJsonFields t path tr = transformJsonFields t' path tr.
Proof.
  induction 1 as [m | | k k' v v' cs cs' Hk Hv IHv Hcs IHcs]; intros path tr.
  - reflexivity.
  - reflexivity.
  - rewrite (transformJsonFields_cons k), (transformJsonFields_cons k').
    now rewrite (entry_lines_similar k k' v v' path tr Hk Hv IHv), IHcs.
Qed.
End DecodedKeys.

Lemma hasJsonFieldsIn_similar (R : string -> string -> Prop) (t t' : Fields) :
  Similar R t t' -> hasJsonFieldsIn t = hasJsonFieldsIn t'.
Proof.
  induction 1 as [m | | k k' v v' cs cs' Hk Hv IHv Hcs IHcs]; try reflexivity.
  rewrite !hasJsonFieldsIn_object in *. cbn [existsb snd]. rewrite IHcs. f_equal.
  destruct (Similar_same_kind R v v' Hv) as [[m [-> ->]] | [cs0 [cs0' [-> ->]]]].
  - reflexivity.
  - exact IHv.
Qed.

Lemma hasJsonFields_similar (R : string -> string -> Prop) (t t' : Fields) :
  Similar R t t' -> hasJsonFields (defined t) = hasJsonFields (defined t').
Proof.
  intros H. cbn [hasJsonFields]. rewrite (hasJsonFieldsIn_similar R t t' H).
  destruct (Similar_same_kind R t t' H) as [[m [-> ->]] | [cs [cs' [-> ->]]]]; reflexivity.
Qed.

Lemma fieldNameOf_mandatory (name : string) :
  isMandatory name = false -> fieldNameOf (name ++ "!") = fieldNameOf name.
Proof.
  intros H. unfold fieldNameOf, isMandatory, isArray in *.
  rewrite H, includes_brackets_bang, dropLast_bang.
  now rewrite (includes_append_r name "!" "!" eq_refl).
Qed.

Lemma ToggleKey_fieldName (k k' : string) : ToggleKey k k' -> fieldNameOf k = fieldNameOf k'.
Proof.
  destruct 1 as [k | name H | name H]; [reflexivity | |].
  - symmetry. now apply fieldNameOf_mandatory.
  - now apply fieldNameOf_mandatory.
Qed.

Lemma ToggleKey_isArray (k k' : string) : ToggleKey k k' -> isArray k = isArray k'.
Proof.
  unfold isArray. destruct 1 as [k | name H | name H]; [reflexivity | |].
  - symmetry. apply includes_brackets_bang.
  - apply includes_brackets_bang.
Qed.

(** C10, as amended.  Putting the mandatory marker on, or taking it off,
    keys whose name holds no [!] of its own, anywhere in the tree, leaves
    the builder's lines identical for every path and direction; and the
    detector's answer is the same for any two trees that differ only in
    their keys. *)
Theorem keys_matter_only_through_their_decoding :
  (forall (t t' : Fields) (path : string) (transformer : Transformer),
      Similar ToggleKey t t' ->
      transformJsonFields t path transformer = transformJsonFields t' path transformer)
  /\ (forall t t' : Fields,
         Similar AnyKey t t' -> hasJsonFields (defined t) = hasJsonFields (defined t')).
Proof.
  split.
  - intros t t' path transformer H.
    exact (transformJsonFields_similar ToggleKey ToggleKey_fieldName ToggleKey_isArray
             t t' H path transformer).
  - intros t t' H. exact (hasJsonFields_similar AnyKey t t' H).
Qed.

(** The mandatory marker taken off the key [payload!], and two keys
    renamed. *)
Lemma keys_matter_only_through_their_decoding_example :
  transformJsonFields (Object [("payload!", Scalar "AWSJSON")]) "data" parse
  = transformJsonFields (Object [("payload", Scalar "AWSJSON")]) "data" parse
  /\ hasJsonFields (defined (Object [("a", Scalar "ID"); ("b", Object [("c", Scalar "AWSJSON")])]))
     = hasJsonFields (defined (Object [("x", Scalar "ID"); ("y", Object [("z", Scalar "AWSJSON")])])).
Proof.
  split.
  - apply (proj1 keys_matter_only_through_their_decoding).
    apply Similar_cons; [ | apply Similar_scalar | apply Similar_nil ].
    exact (ToggleKey_off "payload" eq_refl).
  - apply (proj2 keys_matter_only_through_their_decoding).
    repeat first [ apply Similar_nil | apply Similar_scalar
                 | apply Similar_cons; [exact I | | ] ].
Defined.

(** C10, as stated, fails on a key whose name already ends in [!]: the
    keys [a!] and [a!!] differ by one trailing mandatory marker, yet the
    builder names the field [a] for the first and [a!] for the second. *)
Lemma toggling_after_a_marker_changes_the_lines :
  Similar ToggleAny (Object [("a!", Scalar AWSJSON)]) (Object [("a!!", Scalar AWSJSON)])
  /\ transformJsonFields (Object [("a!", Scalar AWSJSON)]) "data" parse
     = ["a: data.a && JSON.parse(data.a as unknown as string),"]
  /\ transformJsonFields (Object [("a!!", Scalar AWSJSON)]) "data" parse
     = ["a!: data.a! && JSON.parse(data.a! as unknown as string),"]
  /\ transformJsonFields (Object [("a!", Scalar AWSJSON)]) "data" parse
     <> transformJsonFields (Object [("a!!", Scalar AWSJSON)]) "data" parse.
Proof.
  repeat split.
  - apply Similar_cons; [ | apply Similar_scalar | apply Similar_nil ].
    exact (ToggleAny_on "a!").
  - discriminate.
Qed.

(** ** The emitters print the expressions [outputExpr] and [inputExpr] *)

Lemma hasJsonFields_true_defined (x : Nullable Fields) :
  hasJsonFields x = true ->
  exists fs, x = defined fs /\ orThrow x = Ok fs /\ orEmpty x = fs.
Proof.
  destruct x as [| | fs]; cbn [hasJsonFields]; try discriminate.
  intros H. exists fs. cbn [orThrow orEmpty].
  destruct (falsy fs); [discriminate | auto].
Qed.

Lemma outputBody_renders (outputType : OutputType) :
  outputBody outputType
  = Ok (renderOutputExpr (outputExpr outputType) (typeName outputType)).
Proof.
  unfold outputBody, outputExpr.
  destruct (hasJsonFields (fields outputType)) eqn:E; [|reflexivity].
  destruct (hasJsonFields_true_defined _ E) as [fs [_ [-> ->]]].
  cbn [bind renderOutputExpr]. rewrite render_overridesOf.
  unfold renderPath. cbn [var root steps renderSteps]. now rewrite append_nil_r.
Qed.

Lemma variableOverride_renders (e : string * VariableType) :
  variableOverride e = renderVariable (variableOverrides e).
Proof.
  destruct e as [field variable].
  unfold renderVariable. cbn [variableOverride variableOverrides fst snd].
  rewrite render_overridesOf. unfold renderPath.
  cbn [extend var root steps renderSteps app accessText]. now rewrite append_nil_r.
Qed.

Lemma generateInputTransformer_renders
  (operationName operationVariablesTypes operationResultType : string)
  (hasRequiredVariables : bool) (vs : list (string * VariableType)) :
  generateInputTransformer operationName operationVariablesTypes operationResultType
    hasRequiredVariables (defined vs)
  = Ok (nl ++ inputComment operationName operationVariablesTypes (Nat.ltb 0 (List.length vs))
          ++ nl
          ++ renderInputExpr operationName
               (generateQueryVariablesSignature hasRequiredVariables operationVariablesTypes)
               operationVariablesTypes (inputExpr vs)).
Proof.
  unfold generateInputTransformer, inputExpr. cbn [orThrow bind].
  destruct (Nat.ltb 0 (List.length vs)); [|reflexivity].
  destruct (existsb variableHasJson vs); [|reflexivity].
  cbn [renderInputExpr]. rewrite map_map.
  now rewrite (map_ext _ _ variableOverride_renders).
Qed.

(** C4.  When the detector answers false on the output shape, the body of
    the emitted function is the destructured root field cast to the result
    type name and nothing else, and it evaluates to the root field's own
    value.  When the detector answers true, the body is the root field,
    [&&], and a fresh object that spreads the root field and holds the
    builder's lines for the direction [parse], cast to the result type
    name; a root field that is null, undefined or otherwise falsy is
    returned as it is. *)
Theorem output_body_follows_detector
  (operationName operationVariablesTypes operationResultType : string)
  (hasRequiredVariables : bool) (outputType : OutputType) :
  (hasJsonFields (fields outputType) = false ->
     generateOutputTransformer operationName operationVariablesTypes operationResultType
       hasRequiredVariables outputType
     = Ok (nl ++ outputComment operationName operationResultType outputType ++ nl
             ++ outputHead operationName operationResultType outputType
             ++ (fieldName outputType ++ " as " ++ typeName outputType) ++ ";")
     /\ outputExpr outputType = OutCast (fieldName outputType)
     /\ forall (rt : Runtime) (env : Env),
          evalOutputExpr rt (outputExpr outputType) env = Ok (env (fieldName outputType)))
  /\ (hasJsonFields (fields outputType) = true ->
        exists fs : Fields,
          fields outputType = defined fs
          /\ generateOutputTransformer operationName operationVariablesTypes
               operationResultType hasRequiredVariables outputType
             = Ok (nl ++ outputComment operationName operationResultType outputType ++ nl
                     ++ outputHead operationName operationResultType outputType
                     ++ (fieldName outputType ++ " && ({..." ++ fieldName outputType ++ ", "
                           ++ join nl (transformJsonFields fs (fieldName outputType) parse)
                           ++ " }) as " ++ typeName outputType)
                     ++ ";")
          /\ outputExpr outputType
             = OutGuarded (fieldName outputType)
                 (overridesOf fs (var (fieldName outputType)) false parse)
          /\ forall (rt : Runtime) (env : Env),
               truthy (env (fieldName outputType)) = false ->
               evalOutputExpr rt (outputExpr outputType) env
               = Ok (env (fieldName outputType))).
Proof.
  split; intros E.
  - unfold generateOutputTransformer, outputBody, outputExpr. rewrite E.
    repeat split; reflexivity.
  - destruct (hasJsonFields_true_defined _ E) as [fs [Hd [Ht He]]].
    exists fs. split; [exact Hd|].
    unfold generateOutputTransformer, outputBody, outputExpr. rewrite E, Ht, He.
    repeat split; try reflexivity.
    intros rt env Hf. cbn [evalOutputExpr]. now rewrite Hf.
Qed.

(** Examples A and B of the specification. *)
Lemma output_body_follows_detector_examples :
  (generateOutputTransformer "GetNode" "GetNodeQueryVariables" "GetNodeQuery" false exampleA
   = Ok (nl ++ outputComment "GetNode" "GetNodeQuery" exampleA ++ nl
           ++ "export const GetNodeOutput = ({ getNode }: GetNodeQuery) => getNode as Node;")
   /\ outputExpr exampleA = OutCast "getNode"
   /\ forall (rt : Runtime) (env : Env),
        evalOutputExpr rt (outputExpr exampleA) env = Ok (env "getNode"))
  /\ (exists fs : Fields,
         fields exampleB = defined fs
         /\ generateOutputTransformer "GetNode" "GetNodeQueryVariables" "GetNodeQuery" false
              exampleB
            = Ok (nl ++ outputComment "GetNode" "GetNodeQuery" exampleB ++ nl
                    ++ "export const GetNodeOutput = ({ getNode }: GetNodeQuery) => "
                    ++ ("getNode && ({...getNode, "
                          ++ join nl (transformJsonFields fs "getNode" parse)
                          ++ " }) as Node")
                    ++ ";")
         /\ outputExpr exampleB
            = OutGuarded "getNode" (overridesOf fs (var "getNode") false parse)
         /\ forall (rt : Runtime) (env : Env),
              truthy (env "getNode") = false ->
              evalOutputExpr rt (outputExpr exampleB) env = Ok (env "getNode")).
Proof.
  split.
  - exact (proj1 (output_body_follows_detector "GetNode" "GetNodeQueryVariables"
                    "GetNodeQuery" false exampleA) eq_refl).
  - exact (proj2 (output_body_follows_detector "GetNode" "GetNodeQueryVariables"
                    "GetNodeQuery" false exampleB) eq_refl).
Defined.

(** C5.  On the empty variables mapping the emitted implementation is the
    function of no parameter that returns [undefined]; the whole emitted
    text is the same for both values of [hasRequiredVariables], and it does
    not mention the variables type. *)
Theorem empty_variables_give_undefined
  (operationName operationVariablesTypes operationResultType : string)
  (hasRequiredVariables : bool) :
  generateInputTransformer operationName operationVariablesTypes operationResultType
    hasRequiredVariables (defined [])
  = Ok (nl ++ inputComment operationName "" false ++ nl
          ++ "export const " ++ operationName ++ "Input = () => undefined;")
  /\ generateInputTransformer operationName operationVariablesTypes operationResultType
       hasRequiredVariables (defined [])
     = generateInputTransformer operationName operationVariablesTypes operationResultType
         (negb hasRequiredVariables) (defined [])
  /\ inputExpr [] = InUndefined
  /\ forall (rt : Runtime) (variables : value),
       evalInputExpr rt (inputExpr []) variables = Ok VUndefined.
Proof. repeat split. Qed.

(** ** The input emitter and absent entries *)

Lemma entryHasJson_present (e : string * VariableType) :
  entryHasJson (present e) = Ok (variableHasJson e).
Proof. reflexivity. Qed.

Lemma someM_present (vs : list (string * VariableType)) :
  someM entryHasJson (map present vs) = Ok (existsb variableHasJson vs).
Proof.
  induction vs as [|e vs IH]; [reflexivity|].
  cbn [map someM existsb]. rewrite entryHasJson_present. cbn [bind].
  destruct (variableHasJson e); [reflexivity | exact IH].
Qed.

Lemma filterM_present (vs : list (string * VariableType)) :
  filterM entryHasJson (map present vs) = Ok (map present (filter variableHasJson vs)).
Proof.
  induction vs as [|e vs IH]; [reflexivity|].
  cbn [map filterM filter]. rewrite entryHasJson_present, IH. cbn [bind].
  now destruct (variableHasJson e).
Qed.

Lemma entryOverrides_present (vs : list (string * VariableType)) :
  mapM entryOverride (map present vs) = Ok (map variableOverride vs).
Proof.
  induction vs as [|[field variable] vs IH]; [reflexivity|].
  cbn [map mapM]. rewrite IH. reflexivity.
Qed.

(** On a mapping all of whose entries are objects the emitter is the one
    studied so far. *)
Lemma generateInputTransformerAny_present
  (operationName operationVariablesTypes operationResultType : string)
  (hasRequiredVariables : bool) (vs : list (string * VariableType)) :
  generateInputTransformerAny operationName operationVariablesTypes operationResultType
    hasRequiredVariables (defined (map present vs))
  = generateInputTransformer operationName operationVariablesTypes operationResultType
      hasRequiredVariables (defined vs).
Proof.
  unfold generateInputTransformerAny, generateInputTransformer.
  cbn [orThrow bind]. rewrite someM_present, length_map. cbn [bind].
  destruct (Nat.ltb 0 (List.length vs)); [|reflexivity].
  destruct (existsb variableHasJson vs); [|reflexivity].
  rewrite filterM_present. cbn [bind]. rewrite entryOverrides_present. reflexivity.
Qed.

Lemma entryHasJson_absent (field : string) (entry : Nullable VariableType) :
  entry = undefined \/ entry = null ->
  entryHasJson (field, entry) = Throw TypeErrorNullish.
Proof. now intros [-> | ->]. Qed.

Lemma entryHasJson_throws (e : string * Nullable VariableType) (err : JsError) :
  entryHasJson e = Throw err -> err = TypeErrorNullish.
Proof. destruct e as [field [| | variable]]; cbn; congruence. Qed.

Lemma someM_throws (l : list (string * Nullable VariableType)) (err : JsError) :
  someM entryHasJson l = Throw err -> err = TypeErrorNullish.
Proof.
  induction l as [|e l IH]; cbn [someM]; [discriminate|].
  destruct (entryHasJson e) as [b | err'] eqn:E; cbn [bind].
  - destruct b; [discriminate | exact IH].
  - intros [= <-]. now apply (entryHasJson_throws e).
Qed.

Lemma someM_false {A : Type} (f : A -> result bool) (l : list A) :
  someM f l = Ok false -> forall a, In a l -> f a = Ok false.
Proof.
  induction l as [|x l IH]; cbn [someM]; intros H a Hin; [contradiction|].
  destruct (f x) as [b | err] eqn:E; cbn [bind] in H; [|discriminate].
  destruct b; [discriminate|].
  destruct Hin as [<- | Hin]; [exact E | now apply IH].
Qed.

Lemma filterM_absent (l : list (string * Nullable VariableType))
  (e : string * Nullable VariableType) :
  In e l -> entryHasJson e = Throw TypeErrorNullish ->
  filterM entryHasJson l = Throw TypeErrorNullish.
Proof.
  induction l as [|x l IH]; intros Hin He; [contradiction|].
  cbn [filterM]. destruct (entryHasJson x) as [b | err] eqn:E; cbn [bind].
  - destruct Hin as [-> | Hin]; [congruence|]. now rewrite (IH Hin He).
  - f_equal. now apply (entryHasJson_throws x).
Qed.

Lemma generateInputTransformerAny_absent
  (operationName operationVariablesTypes operationResultType : string)
  (hasRequiredVariables : bool) (vs : list (string * Nullable VariableType))
  (field : string) (entry : Nullable VariableType) :
  In (field, entry) vs ->
  entry = undefined \/ entry = null ->
  generateInputTransformerAny operationName operationVariablesTypes operationResultType
    hasRequiredVariables (defined vs) = Throw TypeErrorNullish.
Proof.
  intros Hin Habs. pose proof (entryHasJson_absent field entry Habs) as He.
  unfold generateInputTransformerAny. cbn [orThrow bind].
  destruct (someM entryHasJson vs) as [b | err] eqn:S; cbn [bind].
  - destruct vs as [|v vs']; [contradiction|]. cbn [List.length Nat.ltb Nat.leb].
    destruct b.
    + now rewrite (filterM_absent _ _ Hin He).
    + rewrite (someM_false _ _ S _ Hin) in He. discriminate.
  - f_equal. now apply (someM_throws vs).
Qed.

(** C9, as amended.  The input emitter returns text for every variables
    mapping that is an object, empty or not, all of whose entries are
    objects; it throws on an undefined or null mapping, unlike on the empty
    mapping and unlike the detector, which answers false on an undefined
    tree; and it throws on an object mapping as soon as one of its entries
    is null or undefined. *)
Theorem input_emitter_needs_object_entries
  (operationName operationVariablesTypes operationResultType : string)
  (hasRequiredVariables : bool) :
  (forall vs : list (string * VariableType),
      exists text : string,
        generateInputTransformerAny operationName operationVariablesTypes
          operationResultType hasRequiredVariables (defined (map present vs)) = Ok text
        /\ generateInputTransformer operationName operationVariablesTypes
             operationResultType hasRequiredVariables (defined vs) = Ok text)
  /\ generateInputTransformerAny operationName operationVariablesTypes operationResultType
       hasRequiredVariables undefined = Throw TypeErrorNullish
  /\ generateInputTransformerAny operationName operationVariablesTypes operationResultType
       hasRequiredVariables null = Throw TypeErrorNullish
  /\ (forall (vs : list (string * Nullable VariableType)) (field : string)
             (entry : Nullable VariableType),
         In (field, entry) vs ->
         entry = undefined \/ entry = null ->
         generateInputTransformerAny operationName operationVariablesTypes
           operationResultType hasRequiredVariables (defined vs) = Throw TypeErrorNullish)
  /\ (exists text : string,
        generateInputTransformerAny operationName operationVariablesTypes
          operationResultType hasRequiredVariables (defined []) = Ok text)
  /\ hasJsonFields undefined = false.
Proof.
  split; [|repeat split].
  - intros vs. rewrite generateInputTransformerAny_present.
    rewrite generateInputTransformer_renders. eauto.
  - intros vs field entry. apply generateInputTransformerAny_absent.
  - eexists. reflexivity.
Qed.

(** C9, as stated, fails on the mapping with the single entry [id] set to
    null: the mapping is an object, and the emitter throws on it. *)
Lemma input_emitter_throws_on_a_null_entry :
  generateInputTransformerAny "GetNode" "GetNodeQueryVariables" "GetNodeQuery" true
    (defined [("id", null)])
  = Throw TypeErrorNullish.
Proof. reflexivity. Qed.

(** ** Evaluation: paths *)

Lemma evalSteps_snoc_ok (l : list (Access * string)) (a : Access) (name : string) :
  forall v w : value,
    evalSteps v l = Ok w -> (a = OptDot \/ nullish w = false) ->
    exists u, evalSteps v (l ++ [(a, name)]) = Ok u.
Proof.
  induction l as [|[b m] l IH]; intros v w H Hs.
  - injection H as ->. cbn [app evalSteps]. destruct a.
    + destruct Hs as [Hs | Hs]; [discriminate|]. rewrite Hs. eauto.
    + destruct (nullish w); eauto.
  - cbn [app evalSteps] in *. destruct b, (nullish v); try discriminate; eauto.
Qed.

Lemma Ready_extend (env : Env) (p : Path) (safe : bool) (name : string) :
  Ready env p safe -> exists u, evalPath env (extend p safe name) = Ok u.
Proof.
  intros [v [Hv Hs]]. unfold evalPath, extend in *. cbn [root steps].
  apply (evalSteps_snoc_ok _ _ _ _ v Hv).
  destruct Hs as [-> | Hs]; [left | right]; auto.
Qed.

Lemma Ready_below (env : Env) (p : Path) (safe : bool) (name : string) :
  Ready env p safe -> Ready env (extend p safe name) true.
Proof.
  intros H. destruct (Ready_extend env p safe name H) as [u Hu].
  exists u. auto.
Qed.

Lemma Ready_var (env : Env) (x : string) (v : value) :
  Ready (bindVar x v env) (var x) true.
Proof.
  exists v. split; [|auto].
  unfold evalPath, bindVar. cbn [var root steps evalSteps]. now rewrite String.eqb_refl.
Qed.

(** ** Evaluation: no override of the builder reads through null *)

Lemma NullSafe_bind {A B : Type} (r : result A) (k : A -> result B) :
  NullSafe r -> (forall a, r = Ok a -> NullSafe (k a)) -> NullSafe (bind r k).
Proof.
  intros Hr Hk. destruct r as [a | e]; cbn [bind]; [now apply Hk|].
  intros E. apply Hr. injection E as ->. reflexivity.
Qed.

Lemma NullSafe_mapM {A B : Type} (f : A -> result B) (l : list A) :
  Forall (fun a => NullSafe (f a)) l -> NullSafe (mapM f l).
Proof.
  induction 1 as [|a l Ha _ IH]; cbn [mapM]; [discriminate|].
  apply NullSafe_bind; [exact Ha | intros b _].
  apply NullSafe_bind; [exact IH | intros bs _]. discriminate.
Qed.

Section NullSafety.
Variable rt : Runtime.

Lemma NullSafe_evalGuarded (t : Transformer) (v : value) : NullSafe (evalGuarded rt t v).
Proof.
  unfold evalGuarded, callJson.
  destruct (truthy v); [|discriminate].
  destruct t; [destruct (JSON_parse rt v) | destruct (JSON_stringify rt v)]; discriminate.
Qed.

Lemma NullSafe_scalarOverride (env : Env) (p : Path) (safe : bool)
  (name m : string) (t : Transformer) :
  Ready env p safe ->
  Forall (fun o => NullSafe (evalOverride rt o env))
         (scalarOverride name (extend p safe name) m t).
Proof.
  intros H. unfold scalarOverride. destruct (m =? AWSJSON); constructor; [|constructor].
  cbn [evalOverride]. destruct (Ready_extend env p safe name H) as [u ->]. cbn [bind].
  apply NullSafe_bind; [apply NullSafe_evalGuarded | discriminate].
Qed.

Lemma NullSafe_overridesOf (fields : Fields) :
  forall (p : Path) (safe : bool) (t : Transformer) (env : Env),
    Ready env p safe ->
    Forall (fun o => NullSafe (evalOverride rt o env)) (overridesOf fields p safe t).
Proof.
  induction fields as [s | children IH] using Fields_tree_ind; intros p safe t env H;
    cbn [overridesOf]; apply Forall_forall; intros o Ho;
    apply in_flat_map in Ho as [[field fieldValue] [Hin Ho]].
  - pose proof (NullSafe_scalarOverride env p safe (fieldNameOf field) fieldValue t H) as S.
    rewrite Forall_forall in S. now apply S.
  - rewrite Forall_forall in IH. specialize (IH _ Hin). cbn [snd] in IH.
    destruct fieldValue as [m | sub].
    + pose proof (NullSafe_scalarOverride env p safe (fieldNameOf field) m t H) as S.
      rewrite Forall_forall in S. now apply S.
    + destruct (Ready_extend env p safe (fieldNameOf field) H) as [u Hu].
      destruct (isArray field); destruct Ho as [<- | []]; cbn [evalOverride];
        rewrite Hu; cbn [bind].
      * destruct u; try discriminate.
        apply NullSafe_bind; [|discriminate].
        apply NullSafe_mapM, Forall_forall. intros elem _.
        apply NullSafe_bind; [|discriminate].
        apply NullSafe_mapM, IH, Ready_var.
      * apply NullSafe_bind; [|discriminate].
        apply NullSafe_mapM, IH, (Ready_below env p safe _ H).
Qed.

Lemma NullSafe_evalOverrides (fields : Fields) (p : Path) (safe : bool) (t : Transformer)
  (env : Env) :
  Ready env p safe -> NullSafe (evalOverrides rt (overridesOf fields p safe t) env).
Proof. intros H. now apply NullSafe_mapM, NullSafe_overridesOf. Qed.

(** The output emitter guards the root field, so the body it emits never
    reads a property of null or undefined, whatever the result holds. *)
Lemma NullSafe_outputExpr (outputType : OutputType) (env : Env) :
  NullSafe (evalOutputExpr rt (outputExpr outputType) env).
Proof.
  unfold outputExpr. destruct (hasJsonFields (fields outputType)); [|discriminate].
  cbn [evalOutputExpr]. destruct (truthy (env (fieldName outputType))) eqn:E; [|discriminate].
  apply NullSafe_bind; [|discriminate].
  apply NullSafe_evalOverrides. exists (env (fieldName outputType)). split; [reflexivity|].
  right. now destruct (env (fieldName outputType)).
Qed.
End NullSafety.

(** ** Evaluation: an object built over a spread keeps the other fields *)

Lemma bind_Ok {A B : Type} (r : result A) (k : A -> result B) (b : B) :
  bind r k = Ok b -> exists a, r = Ok a /\ k a = Ok b.
Proof. destruct r as [a | e]; cbn [bind]; [eauto | discriminate]. Qed.

Lemma objGet_objSet_other (k k' : string) (v : value) (props : list (string * value)) :
  k <> k' -> objGet k' (objSet k v props) = objGet k' props.
Proof.
  intros Hk. induction props as [|[j w] props IH]; cbn [objSet objGet].
  - apply String.eqb_neq in Hk. now rewrite Hk.
  - destruct (j =? k) eqn:E; cbn [objGet].
    + apply String.eqb_eq in E. subst j.
      apply String.eqb_neq in Hk. now rewrite Hk.
    + now rewrite IH.
Qed.

Lemma objGet_objSet_same (k : string) (v : value) (props : list (string * value)) :
  objGet k (objSet k v props) = v.
Proof.
  induction props as [|[j w] props IH]; cbn [objSet objGet].
  - now rewrite String.eqb_refl.
  - destruct (j =? k) eqn:E; cbn [objGet]; now rewrite E.
Qed.

Lemma construct_other (k : string) (props src : list (string * value)) :
  ~ In k (map fst props) -> getProp (construct src props) k = objGet k src.
Proof.
  unfold construct. cbn [getProp]. revert src.
  induction props as [|[j w] props IH]; intros src Hk; [reflexivity|].
  cbn [fold_left fst snd map In] in *.
  rewrite IH by tauto. apply objGet_objSet_other. tauto.
Qed.

Lemma evalOverride_name (rt : Runtime) (o : Override) (env : Env) (kv : string * value) :
  evalOverride rt o env = Ok kv -> fst kv = overrideName o.
Proof.
  destruct o as [name p t | name p body | name p x body]; cbn [evalOverride overrideName];
    intros H; apply bind_Ok in H as [a [_ H]].
  - apply bind_Ok in H as [w [_ H]]. now injection H as <-.
  - apply bind_Ok in H as [w [_ H]]. now injection H as <-.
  - destruct a; try discriminate; try (now injection H as <-).
    apply bind_Ok in H as [w [_ H]]. now injection H as <-.
Qed.

Lemma evalOverrides_names (rt : Runtime) (body : list Override) (env : Env) :
  forall props, evalOverrides rt body env = Ok props -> map fst props = map overrideName body.
Proof.
  unfold evalOverrides. induction body as [|o body IH]; cbn [mapM]; intros props H.
  - now injection H as <-.
  - apply bind_Ok in H as [kv [Hkv H]]. apply bind_Ok in H as [kvs [Hkvs H]].
    injection H as <-. cbn [map]. f_equal; [now apply (evalOverride_name rt o env) | now apply IH].
Qed.

(** In the object that the output emitter builds, every field of the root
    object that no override entry names keeps its value. *)
Lemma output_keeps_other_fields (rt : Runtime) (outputType : OutputType) (env : Env)
  (src : list (string * value)) (r : value) (k : string) :
  env (fieldName outputType) = VObject src ->
  evalOutputExpr rt (outputExpr outputType) env = Ok r ->
  ~ In k (map overrideName
            (overridesOf (orEmpty (fields outputType)) (var (fieldName outputType)) false parse)) ->
  getProp r k = objGet k src.
Proof.
  intros Hsrc H Hk. unfold outputExpr in H.
  destruct (hasJsonFields (fields outputType)); cbn [evalOutputExpr] in H.
  - rewrite Hsrc in H. cbn [truthy] in H.
    apply bind_Ok in H as [props [Hp H]]. injection H as <-.
    cbn [ownEntries]. apply construct_other.
    now rewrite (evalOverrides_names rt _ env props Hp).
  - injection H as <-. now rewrite Hsrc.
Qed.

(** ** The emitted code, evaluated *)

Lemma hasJsonFields_true_in (x : Nullable Fields) :
  hasJsonFields x = true -> hasJsonFieldsIn (orEmpty x) = true.
Proof.
  destruct x as [| | fs]; cbn [hasJsonFields orEmpty]; try discriminate.
  now destruct (falsy fs).
Qed.

Lemma overridesOf_top_paths (fields : Fields) (p : Path) (safe : bool) (t : Transformer)
  (o : Override) :
  In o (overridesOf fields p safe t) -> exists name, overridePath o = extend p safe name.
Proof.
  destruct fields as [s | children]; cbn [overridesOf]; intros Ho;
    apply in_flat_map in Ho as [[field fieldValue] [_ Ho]].
  - unfold scalarOverride in Ho. destruct (fieldValue =? AWSJSON); [|contradiction].
    destruct Ho as [<- | []]. now exists (fieldNameOf field).
  - exists (fieldNameOf field). destruct fieldValue as [m | sub].
    + unfold scalarOverride in Ho. destruct (m =? AWSJSON); [|contradiction].
      now destruct Ho as [<- | []].
    + destruct (isArray field); now destruct Ho as [<- | []].
Qed.

Lemma overridesOf_nonempty (fields : Fields) (p : Path) (safe : bool) (t : Transformer) :
  hasJsonFieldsIn fields = true -> overridesOf fields p safe t <> [].
Proof.
  destruct fields as [s | children].
  - now rewrite hasJsonFieldsIn_scalar.
  - rewrite hasJsonFieldsIn_object, existsb_exists.
    intros [[field fieldValue] [Hin Hc]] E. cbn [snd] in Hc.
    assert (Ho : exists o : Override, In o (overridesOf (Object children) p safe t)).
    { cbn [overridesOf].
      destruct fieldValue as [m | sub].
      - exists (OJson (fieldNameOf field) (extend p safe (fieldNameOf field)) t).
        apply in_flat_map. exists (field, Scalar m). split; [exact Hin|].
        cbn [childHasJson] in Hc. unfold scalarOverride. rewrite Hc. now left.
      - destruct (isArray field) eqn:A; eexists; apply in_flat_map;
          exists (field, Object sub); (split; [exact Hin|]); rewrite A; now left. }
    destruct Ho as [o Ho]. rewrite E in Ho. contradiction.
Qed.

Lemma evalOverride_throws_at_path (rt : Runtime) (o : Override) (env : Env) (e : JsError) :
  evalPath env (overridePath o) = Throw e -> evalOverride rt o env = Throw e.
Proof. destruct o; cbn [overridePath evalOverride]; now intros ->. Qed.

(** Whatever the shapes, as soon as some variable has a JSON field the
    emitted input function throws when it is called without variables. *)
Lemma input_throws_without_variables (rt : Runtime) (vs : list (string * VariableType))
  (variables : value) :
  existsb variableHasJson vs = true ->
  nullish variables = true ->
  evalInputExpr rt (inputExpr vs) variables = Throw TypeErrorNullish.
Proof.
  intros Hj Hn. unfold inputExpr. rewrite Hj.
  assert (Hf : exists e rest, filter variableHasJson vs = e :: rest /\ variableHasJson e = true).
  { apply existsb_exists in Hj as [e [Hin He]].
    assert (Hin' : In e (filter variableHasJson vs)) by (apply filter_In; auto).
    destruct (filter variableHasJson vs) as [|e0 rest] eqn:F; [contradiction|].
    exists e0, rest. split; [reflexivity|].
    assert (H0 : In e0 (filter variableHasJson vs)) by (rewrite F; now left).
    now apply filter_In in H0. }
  destruct Hf as [[field variable] [rest [F He]]].
  destruct vs as [|v0 vs']; [discriminate|]. cbn [List.length Nat.ltb Nat.leb].
  rewrite F. cbn [map evalInputExpr mapM variableOverrides snd fst].
  unfold variableHasJson in He. cbn [snd] in He.
  pose proof (overridesOf_nonempty (orEmpty (variableFields variable))
                (extend (var "variables") false field) false stringify
                (hasJsonFields_true_in _ He)) as Hne.
  destruct (overridesOf (orEmpty (variableFields variable))
              (extend (var "variables") false field) false stringify) as [|o os] eqn:O;
    [congruence|].
  assert (Ho : In o (overridesOf (orEmpty (variableFields variable))
                       (extend (var "variables") false field) false stringify))
    by (rewrite O; now left).
  apply overridesOf_top_paths in Ho as [name Hp].
  unfold evalOverrides. cbn [mapM].
  rewrite (evalOverride_throws_at_path rt o _ TypeErrorNullish); [reflexivity|].
  rewrite Hp. unfold evalPath, bindVar.
  cbn [extend var root steps app evalSteps]. cbn. now rewrite Hn.
Qed.

(** C1, at a failing input.  For the single optional variable [input] with
    a JSON field [data], the input emitter writes the access path
    [variables.input.data] with plain dots and without a guard, and the
    emitted function throws when it is called without variables, with an
    empty variables object, or with [input] set to null.  The first of
    these holds for every variables mapping in which some variable has a
    JSON field. *)
Theorem input_paths_are_not_guarded :
  generateInputTransformer "CreateNode" "CreateNodeMutationVariables" "CreateNodeMutation"
    false (defined inputWithJson)
  = Ok (nl ++ inputComment "CreateNode" "CreateNodeMutationVariables" true ++ nl
          ++ "export const CreateNodeInput = (variables?: CreateNodeMutationVariables) => "
          ++ "({...variables, input: { data: variables.input.data && "
          ++ "JSON.stringify(variables.input.data as unknown as Record<string, any>), }, })"
          ++ " as CreateNodeMutationVariables;")
  /\ inputExpr inputWithJson
     = InOverrides
         [("input",
           [OJson "data"
              {| root := "variables"; steps := [(Dot, "input"); (Dot, "data")] |}
              stringify])]
  /\ (forall rt : Runtime,
        evalInputExpr rt (inputExpr inputWithJson) VUndefined = Throw TypeErrorNullish
        /\ evalInputExpr rt (inputExpr inputWithJson) (VObject []) = Throw TypeErrorNullish
        /\ evalInputExpr rt (inputExpr inputWithJson) (VObject [("input", VNull)])
           = Throw TypeErrorNullish)
  /\ (forall (rt : Runtime) (vs : list (string * VariableType)),
        existsb variableHasJson vs = true ->
        evalInputExpr rt (inputExpr vs) VUndefined = Throw TypeErrorNullish).
Proof.
  repeat split.
  intros rt vs H. now apply input_throws_without_variables.
Qed.

(** Whatever the shape of a variable with a JSON field, the object that
    the emitted input function returns for it holds nothing but the
    override entries: every other field of the variable is gone. *)
Lemma input_variable_keeps_only_overrides (rt : Runtime) (field : string)
  (variable : VariableType) (src : list (string * value)) (r : value) (k : string) :
  variableHasJson (field, variable) = true ->
  evalInputExpr rt (inputExpr [(field, variable)]) (VObject [(field, VObject src)]) = Ok r ->
  ~ In k (map overrideName (snd (variableOverrides (field, variable)))) ->
  getProp (getProp r field) k = VUndefined.
Proof.
  intros Hj H Hk. unfold inputExpr in H.
  cbn [List.length Nat.ltb Nat.leb existsb filter] in H. rewrite Hj in H.
  cbn [orb map evalInputExpr mapM] in H.
  apply bind_Ok in H as [props [Hp H]]. injection H as <-.
  apply bind_Ok in Hp as [kv [Hkv Hp]]. cbn [bind] in Hp. injection Hp as <-.
  apply bind_Ok in Hkv as [ps [Hps Hkv]]. injection Hkv as <-.
  unfold construct at 1. cbn [ownEntries fold_left fst snd objSet getProp] in *.
  rewrite String.eqb_refl. cbn [objGet]. rewrite String.eqb_refl.
  rewrite construct_other; [reflexivity|].
  now rewrite (evalOverrides_names rt _ _ ps Hps).
Qed.

(** C2, at a failing input.  For the variable [input] with the fields [id]
    and [data], of which only [data] is JSON, the override object that the
    input emitter writes for [input] holds the line of [data] and no spread
    of [variables.input]: the emitted function returns an [input] without
    its [id].  For a variable of any shape with a JSON field, every field
    that no override entry names is absent from what the function
    returns. *)
Theorem input_override_drops_other_fields :
  generateInputTransformer "CreateNode" "CreateNodeMutationVariables" "CreateNodeMutation"
    true (defined inputWithJson)
  = Ok (nl ++ inputComment "CreateNode" "CreateNodeMutationVariables" true ++ nl
          ++ "export const CreateNodeInput = (variables: CreateNodeMutationVariables) => "
          ++ "({...variables, input: { data: variables.input.data && "
          ++ "JSON.stringify(variables.input.data as unknown as Record<string, any>), }, })"
          ++ " as CreateNodeMutationVariables;")
  /\ (forall (rt : Runtime) (id data : value),
        truthy data = true ->
        evalInputExpr rt (inputExpr inputWithJson)
          (VObject [("input", VObject [("id", id); ("data", data)])])
        = match JSON_stringify rt data with
          | Some text => Ok (VObject [("input", VObject [("data", text)])])
          | None => Throw JsonFailure
          end)
  /\ (forall (rt : Runtime) (field : string) (variable : VariableType)
             (src : list (string * value)) (r : value) (k : string),
        variableHasJson (field, variable) = true ->
        evalInputExpr rt (inputExpr [(field, variable)]) (VObject [(field, VObject src)])
        = Ok r ->
        ~ In k (map overrideName (snd (variableOverrides (field, variable)))) ->
        getProp (getProp r field) k = VUndefined).
Proof.
  split; [reflexivity|]. split.
  - intros rt id data Hd.
    cbn. unfold evalGuarded, callJson. rewrite Hd.
    destruct (JSON_stringify rt data); reflexivity.
  - intros rt field variable src r k. apply input_variable_keeps_only_overrides.
Qed.

(** The emitted input function applied to an [input] with an identifier
    and an empty JSON object. *)
Lemma input_override_drops_other_fields_example :
  evalInputExpr literalRuntime (inputExpr inputWithJson)
    (VObject [("input", VObject [("id", VString "n1"); ("data", VObject [])])])
  = Ok (VObject [("input", VObject [("data", VString "{}")])]).
Proof.
  exact (proj1 (proj2 input_override_drops_other_fields) literalRuntime
           (VString "n1") (VObject []) eq_refl).
Defined.

Lemma substring_0_0 (s : string) : substring 0 0 s = "".
Proof. now destruct s. Qed.

(** C6, at failing inputs.  For the list field [a] the element variable
    is the empty string: the builder writes an arrow function without a
    parameter, a spread of nothing and an access path that starts at
    nothing.  For the list field [news] the element variable is the
    reserved word [new].  Neither is a variable, and the entry printed from
    either is not text that JavaScript reads; the first holds for every
    array key whose field name has at most one character. *)
Theorem short_list_names_leave_no_element_variable :
  transformJsonFields (Object [("a[]", Object [("meta", Scalar AWSJSON)])]) "data" parse
  = ["a: data.a?.map(() => ({";
     "...,";
     "meta: ?.meta && JSON.parse(?.meta as unknown as string),";
     "})),"]
  /\ isArray "a[]" = true
  /\ fieldNameSingularOf "a[]" = ""
  /\ bindingIdentifier (fieldNameSingularOf "a[]") = false
  /\ forallb parsesOverride
       (overridesOf (Object [("a[]", Object [("meta", Scalar AWSJSON)])]) (var "data") false
          parse) = false
  /\ transformJsonFields (Object [("news[]", Object [("meta", Scalar AWSJSON)])]) "data" parse
     = ["news: data.news?.map((new) => ({";
        "...new,";
        "meta: new?.meta && JSON.parse(new?.meta as unknown as string),";
        "})),"]
  /\ isArray "news[]" = true
  /\ bindingIdentifier (fieldNameSingularOf "news[]") = false
  /\ forallb parsesOverride
       (overridesOf (Object [("news[]", Object [("meta", Scalar AWSJSON)])]) (var "data")
          false parse) = false
  /\ (forall field : string,
        isArray field = true ->
        String.length (fieldNameOf field) <= 1 ->
        fieldNameSingularOf field = ""
        /\ bindingIdentifier (fieldNameSingularOf field) = false).
Proof.
  repeat split.
  all: unfold fieldNameSingularOf, dropLast;
    replace (String.length (fieldNameOf field) - 1) with 0 by lia;
    now rewrite substring_0_0.
Qed.

Lemma scalarOverride_marker (name : string) (p : Path) (t : Transformer) :
  scalarOverride name p AWSJSON t = [OJson name p t].
Proof. reflexivity. Qed.

(** C8.  Take a JSON leaf and a value that is falsy or serializable.  The
    builder's [stringify] line, evaluated where the field holds the value,
    gives a wire value; the builder's [parse] line, evaluated where the
    field holds that wire value, gives the value back. *)
Theorem encode_then_decode (rt : Runtime) (field : string) (v : value) (env : Env) :
  (truthy v = true -> Serializable rt v) ->
  exists wire : value,
    evalOverrides rt
      (overridesOf (Object [(field, Scalar AWSJSON)]) (var "variables") false stringify)
      (bindVar "variables" (VObject [(fieldNameOf field, v)]) env)
    = Ok [(fieldNameOf field, wire)]
    /\ evalOverrides rt
         (overridesOf (Object [(field, Scalar AWSJSON)]) (var "data") false parse)
         (bindVar "data" (VObject [(fieldNameOf field, wire)]) env)
       = Ok [(fieldNameOf field, v)].
Proof.
  intros Hs.
  assert (P : forall (x : string) (w : value),
             evalPath (bindVar x (VObject [(fieldNameOf field, w)]) env)
               (extend (var x) false (fieldNameOf field)) = Ok w).
  { intros x w. unfold evalPath, bindVar. cbn [extend var root steps app evalSteps].
    rewrite String.eqb_refl. cbn [nullish getProp objGet]. now rewrite String.eqb_refl. }
  cbn [overridesOf flat_map]. unfold evalOverrides.
  rewrite !scalarOverride_marker. cbn [app mapM evalOverride].
  rewrite !P. cbn [bind]. unfold evalGuarded, callJson.
  destruct (truthy v) eqn:Tv.
  - destruct (Hs eq_refl) as [s [Hstr [Hne Hparse]]].
    exists (VString s). rewrite Hstr. cbn [bind]. split; [reflexivity|].
    rewrite P. cbn [bind truthy].
    apply String.eqb_neq in Hne. rewrite Hne. cbn [negb]. now rewrite Hparse.
  - exists v. cbn [bind]. split; [reflexivity|].
    rewrite P. cbn [bind]. now rewrite Tv.
Qed.

(** The empty object travels as the text of two braces and comes back. *)
Lemma encode_then_decode_example :
  exists wire : value,
    evalOverrides literalRuntime
      (overridesOf (Object [("payload", Scalar AWSJSON)]) (var "variables") false stringify)
      (bindVar "variables" (VObject [("payload", VObject [])]) (fun _ => VUndefined))
    = Ok [("payload", wire)]
    /\ evalOverrides literalRuntime
         (overridesOf (Object [("payload", Scalar AWSJSON)]) (var "data") false parse)
         (bindVar "data" (VObject [("payload", wire)]) (fun _ => VUndefined))
       = Ok [("payload", VObject [])].
Proof.
  apply (encode_then_decode literalRuntime "payload" (VObject []) (fun _ => VUndefined)).
  intros _. exists "{}". repeat split. discriminate.
Defined.


(** * Further properties of the generator *)

(** ** What the builder writes, and when *)

Lemma transformJsonFields_scalar (s path : string) (t : Transformer) :
  transformJsonFields (Scalar s) path t = [].
Proof.
  cbn [transformJsonFields]. generalize 0.
  induction s as [|c s IH]; intros i; [reflexivity|].
  cbn [charEntries flat_map]. rewrite IH. unfold scalarLines.
  now rewrite char_is_not_marker.
Qed.

Lemma scalarLines_jsonLine (name path : string) (t : Transformer) :
  scalarLines name path AWSJSON t = [jsonLine name path t].
Proof. now destruct t. Qed.

Lemma scalarLines_other (name path m : string) (t : Transformer) :
  (m =? AWSJSON) = false -> scalarLines name path m t = [].
Proof. unfold scalarLines. now intros ->. Qed.

Lemma entry_lines_empty_iff (e : string * Fields) (path : string) (t : Transformer) :
  transformJsonFields (Object [e]) path t = [] <-> silent e = true.
Proof.
  destruct e as [field [m | sub]]; cbn [transformJsonFields flat_map silent snd].
  - unfold scalarLines. destruct (m =? AWSJSON); [|now split].
    destruct t; split; discriminate.
  - destruct (isArray field); split; discriminate.
Qed.

(** X1.  The builder writes no line at all exactly when every entry of
    the mapping is a scalar of another type than AWSJSON; so it writes
    lines whenever the detector answers true, and it also writes lines (a
    spread between braces) for a nested object that holds no JSON field,
    on which the detector answers false.  Given a bare scalar it writes
    nothing. *)
Theorem builder_is_silent_on_plain_scalars_only :
  (forall (children : list (string * Fields)) (path : string) (t : Transformer),
      transformJsonFields (Object children) path t = [] <-> forallb silent children = true)
  /\ (forall (children : list (string * Fields)) (path : string) (t : Transformer),
         hasJsonFields (defined (Object children)) = true ->
         transformJsonFields (Object children) path t <> [])
  /\ (forall (field : string) (sub : list (string * Fields)) (path : string) (t : Transformer),
         transformJsonFields (Object [(field, Object sub)]) path t <> []
         /\ hasJsonFields (defined (Object [(field, Object sub)]))
            = hasJsonFields (defined (Object sub)))
  /\ (forall (s path : string) (t : Transformer), transformJsonFields (Scalar s) path t = []).
Proof.
  assert (A : forall children path t,
             transformJsonFields (Object children) path t = []
             <-> forallb silent children = true).
  { intros children path t. induction children as [|e cs IH]; [now split|].
    destruct e as [field v]. rewrite (transformJsonFields_cons field v cs).
    cbn [forallb]. rewrite andb_true_iff, <- IH, <- (entry_lines_empty_iff (field, v) path t).
    split.
    - intros H. now apply app_eq_nil in H.
    - intros [-> ->]. reflexivity. }
  split; [exact A|]. split; [|split].
  - intros children path t H E. apply A in E.
    cbn [hasJsonFields falsy] in H. rewrite hasJsonFieldsIn_object in H.
    apply existsb_exists in H as [[field v] [Hin Hc]].
    rewrite forallb_forall in E. specialize (E _ Hin).
    destruct v as [m | sub]; cbn [silent snd childHasJson] in *; [|discriminate].
    rewrite Hc in E. discriminate.
  - intros field sub path t. split.
    + intros E. apply A in E. discriminate.
    + cbn [hasJsonFields falsy]. rewrite (hasJsonFieldsIn_object [(field, Object sub)]).
      cbn [existsb snd childHasJson]. apply orb_false_r.
  - apply transformJsonFields_scalar.
Qed.

Lemma length_flat_map_sum {A B : Type} (g : A -> list B) (l : list A) :
  List.length (flat_map g l) = list_sum (map (fun a => List.length (g a)) l).
Proof.
  induction l as [|a l IH]; [reflexivity|].
  simpl. now rewrite length_app, IH.
Qed.

Lemma list_sum_pointwise {A : Type} (f g : A -> nat) (l : list A) :
  Forall (fun a => f a = g a) l -> list_sum (map f l) = list_sum (map g l).
Proof. induction 1 as [|a l H _ IH]; simpl; [reflexivity | now rewrite H, IH]. Qed.

Lemma list_sum_plus {A : Type} (f g : A -> nat) (l : list A) :
  list_sum (map (fun a => f a + g a) l) = list_sum (map f l) + list_sum (map g l).
Proof. induction l as [|a l IH]; simpl; [reflexivity | rewrite IH; lia]. Qed.

Lemma list_sum_times {A : Type} (f : A -> nat) (k : nat) (l : list A) :
  list_sum (map (fun a => k * f a) l) = k * list_sum (map f l).
Proof. induction l as [|a l IH]; simpl; [lia | rewrite IH; lia]. Qed.

(** X2.  The builder writes three lines for every object below the root
    (two that open it and one that closes it) and one line for every leaf
    marked AWSJSON, and nothing else; the number of lines depends neither
    on the path nor on the direction. *)
Theorem builder_line_count (fields : Fields) (path : string) (t : Transformer) :
  List.length (transformJsonFields fields path t)
  = 3 * objectCount fields + jsonCount fields.
Proof.
  revert path. induction fields as [s | children IH] using Fields_tree_ind; intros path.
  - now rewrite transformJsonFields_scalar.
  - cbn [transformJsonFields objectCount jsonCount].
    rewrite length_flat_map_sum, <- list_sum_times, <- list_sum_plus.
    apply list_sum_pointwise.
    induction IH as [|[field v] rest Hv _ IHrest]; constructor; [|exact IHrest].
    cbn [snd] in Hv. destruct v as [m | sub].
    + unfold scalarLines. destruct (m =? AWSJSON); [now destruct t | reflexivity].
    + destruct (isArray field); rewrite !length_app, Hv;
        cbn [arrayOpen objectOpen List.length]; lia.
Qed.

Lemma prune_object (sub : list (string * Fields)) : exists cs, prune (Object sub) = Object cs.
Proof. cbn [prune]. eauto. Qed.

Lemma existsb_flat_map {A B : Type} (f : B -> bool) (h : A -> list B) (l : list A) :
  existsb f (flat_map h l) = existsb (fun a => existsb f (h a)) l.
Proof.
  induction l as [|a l IH]; [reflexivity|].
  cbn [flat_map existsb]. now rewrite existsb_app, IH.
Qed.

Lemma existsb_ext_Forall {A : Type} (f g : A -> bool) (l : list A) :
  Forall (fun a => f a = g a) l -> existsb f l = existsb g l.
Proof. induction 1 as [|a l H _ IH]; cbn [existsb]; [reflexivity | now rewrite H, IH]. Qed.

Lemma transformJsonFields_prune (fields : Fields) :
  forall (path : string) (t : Transformer),
    transformJsonFields (prune fields) path t = transformJsonFields fields path t.
Proof.
  induction fields as [s | children IH] using Fields_tree_ind; intros path t; [reflexivity|].
  cbn [prune transformJsonFields]. rewrite flat_map_flat_map. apply flat_map_ext_Forall.
  induction IH as [|[field v] rest Hv _ IHrest]; constructor; [|exact IHrest].
  cbn [snd] in Hv. destruct v as [m | sub].
  - destruct (m =? AWSJSON) eqn:E; cbn [flat_map].
    + apply app_nil_r.
    + symmetry. now apply scalarLines_other.
  - destruct (prune_object sub) as [cs E]. rewrite E in *.
    cbn [flat_map]. rewrite app_nil_r. now rewrite !Hv.
Qed.

Lemma hasJsonFieldsIn_prune (fields : Fields) :
  hasJsonFieldsIn (prune fields) = hasJsonFieldsIn fields.
Proof.
  induction fields as [s | children IH] using Fields_tree_ind; [reflexivity|].
  cbn [prune]. rewrite !hasJsonFieldsIn_object, existsb_flat_map.
  apply existsb_ext_Forall.
  induction IH as [|[field v] rest Hv _ IHrest]; constructor; [|exact IHrest].
  cbn [snd] in Hv. destruct v as [m | sub].
  - destruct (m =? AWSJSON) eqn:E; cbn [existsb snd childHasJson]; now rewrite ?E.
  - destruct (prune_object sub) as [cs E]. rewrite E in *.
    cbn [existsb snd childHasJson]. rewrite Hv. apply orb_false_r.
Qed.

(** X3.  Scalars of any other type than AWSJSON never matter: with all of
    them taken out of the tree, at every depth, the builder writes the same
    lines for every path and direction and the detector gives the same
    answer. *)
Theorem plain_scalars_never_matter (fields : Fields) :
  (forall (path : string) (t : Transformer),
      transformJsonFields (prune fields) path t = transformJsonFields fields path t)
  /\ hasJsonFields (defined (prune fields)) = hasJsonFields (defined fields).
Proof.
  split; [apply transformJsonFields_prune|].
  cbn [hasJsonFields]. rewrite hasJsonFieldsIn_prune.
  destruct fields as [m | children]; [reflexivity|].
  destruct (prune_object children) as [cs ->]. reflexivity.
Qed.

(** ** The two directions *)

Lemma SameField_refl (l : list string) : Forall2 SameField l l.
Proof. induction l; constructor; [now left | assumption]. Qed.

(** X4.  Both directions touch the same fields at the same paths: line by
    line, what the builder writes for [parse] and for [stringify] is either
    the same line or the pair of override lines of one JSON field at one
    access path. *)
Theorem directions_touch_the_same_fields (fields : Fields) (path : string) :
  Forall2 SameField (transformJsonFields fields path parse)
                    (transformJsonFields fields path stringify).
Proof.
  revert path. induction fields as [s | children IH] using Fields_tree_ind; intros path.
  - rewrite !transformJsonFields_scalar. constructor.
  - induction IH as [|[field v] rest Hv _ IHrest]; [constructor|].
    rewrite (transformJsonFields_cons field v rest path parse).
    rewrite (transformJsonFields_cons field v rest path stringify).
    apply Forall2_app; [|exact IHrest].
    cbn [snd] in Hv. cbn [transformJsonFields flat_map]. rewrite !app_nil_r.
    destruct v as [m | sub].
    + unfold scalarLines. destruct (m =? AWSJSON); constructor; [|constructor].
      right. now exists (fieldNameOf field), (fieldPathOf path field).
    + destruct (isArray field);
        (apply Forall2_app; [apply SameField_refl|]);
        (apply Forall2_app; [apply Hv | apply SameField_refl]).
Qed.

(** ** The detector and the order of the entries *)

Lemma existsb_Permutation {A : Type} (f : A -> bool) (l l' : list A) :
  Permutation l l' -> existsb f l = existsb f l'.
Proof.
  induction 1 as [| a l l' _ IH | a b l | l l' l'' _ IH1 _ IH2]; cbn [existsb].
  - reflexivity.
  - now rewrite IH.
  - now rewrite !orb_assoc, (orb_comm (f b)).
  - now rewrite IH1.
Qed.

(** X5.  The detector looks at every entry but not at their order: on two
    mappings put one after the other it answers the disjunction of its
    answers on each, and it answers the same on any rearrangement of the
    entries of a mapping. *)
Theorem detector_ignores_order :
  (forall a b : list (string * Fields),
      hasJsonFields (defined (Object (a ++ b)))
      = hasJsonFields (defined (Object a)) || hasJsonFields (defined (Object b)))
  /\ (forall children children' : list (string * Fields),
         Permutation children children' ->
         hasJsonFields (defined (Object children))
         = hasJsonFields (defined (Object children'))).
Proof.
  split.
  - intros a b. cbn [hasJsonFields falsy].
    rewrite !hasJsonFieldsIn_object. apply existsb_app.
  - intros children children' H. cbn [hasJsonFields falsy].
    rewrite !hasJsonFieldsIn_object. now apply existsb_Permutation.
Qed.

(** ** Keys are only ever cut at their end *)

Lemma substring_split (n : nat) (s : string) :
  exists suffix, s = substring 0 n s ++ suffix
                 /\ String.length suffix = String.length s - n.
Proof.
  revert n. induction s as [|c s IH]; intros n.
  - exists "". now destruct n.
  - destruct n as [|n].
    + exists (String c s). split; reflexivity.
    + destruct (IH n) as [suffix [E L]]. exists suffix.
      cbn [substring append String.length]. split; [now rewrite <- E | exact L].
Qed.

Lemma length_substring_0 (n : nat) (s : string) :
  String.length (substring 0 n s) = Nat.min n (String.length s).
Proof.
  revert n. induction s as [|c s IH]; intros [|n]; cbn [substring String.length Nat.min];
    try reflexivity. now rewrite IH.
Qed.

Lemma substring_substring_0 (n m : nat) (s : string) :
  n <= m -> substring 0 n (substring 0 m s) = substring 0 n s.
Proof.
  revert n m. induction s as [|c s IH]; intros n m H.
  - destruct n, m; reflexivity.
  - destruct n as [|n]; [now destruct m|].
    destruct m as [|m]; [lia|].
    cbn [substring]. rewrite IH by lia. reflexivity.
Qed.

Lemma dropLast_dropLast (a b : nat) (s : string) :
  dropLast a (dropLast b s) = dropLast (b + a) s.
Proof.
  unfold dropLast. rewrite length_substring_0.
  rewrite substring_substring_0 by lia. f_equal. lia.
Qed.

(** The number of characters that the builder cuts off a key. *)
Lemma fieldNameOf_dropLast (field : string) :
  fieldNameOf field
  = dropLast ((if isMandatory field then 1 else 0) + (if isArray field then 2 else 0)) field.
Proof.
  unfold fieldNameOf.
  destruct (isMandatory field), (isArray field); cbn [Nat.add];
    rewrite ?dropLast_dropLast; try reflexivity.
  all: unfold dropLast; rewrite Nat.sub_0_r;
    destruct (substring_split (String.length field) field) as [suffix [E L]];
    rewrite Nat.sub_diag in L; destruct suffix; [|discriminate];
    rewrite append_nil_r in E; now rewrite <- E.
Qed.

(** X6.  The builder only ever cuts a key at its end and changes none of
    its characters: the key is the field name followed by the characters
    cut off, one for a [!] found in the key and two for a [[]] found in
    it (fewer when the key is shorter), and the field name is in turn the
    element variable followed by at most one character. *)
Theorem keys_are_cut_at_the_end (field : string) :
  (exists suffix : string,
      field = fieldNameOf field ++ suffix
      /\ String.length suffix
         = Nat.min (String.length field)
             ((if isMandatory field then 1 else 0) + (if isArray field then 2 else 0)))
  /\ (exists last : string,
         fieldNameOf field = fieldNameSingularOf field ++ last
         /\ String.length last = Nat.min (String.length (fieldNameOf field)) 1).
Proof.
  split.
  - rewrite fieldNameOf_dropLast. unfold dropLast.
    destruct (substring_split
                (String.length field
                 - ((if isMandatory field then 1 else 0) + (if isArray field then 2 else 0)))
                field) as [suffix [E L]].
    exists suffix. split; [exact E | lia].
  - unfold fieldNameSingularOf, dropLast.
    destruct (substring_split (String.length (fieldNameOf field) - 1) (fieldNameOf field))
      as [last [E L]].
    exists last. split; [exact E | lia].
Qed.

(** ** The emitted code never reads through null below a safe path *)

(** X7.  Whatever the shape tree and the direction, when the base path
    evaluates and either is handed down with a trailing [?] or has a value
    that is neither null nor undefined, the entries that the builder writes
    evaluate without ever reading a property of null or undefined; these
    entries, printed, are the builder's lines. *)
Theorem builder_lines_are_null_safe
  (rt : Runtime) (fields : Fields) (p : Path) (safe : bool) (t : Transformer) (env : Env) :
  Ready env p safe ->
  NullSafe (evalOverrides rt (overridesOf fields p safe t) env)
  /\ flat_map renderOverride (overridesOf fields p safe t)
     = transformJsonFields fields (renderPath p ++ (if safe then "?" else "")) t.
Proof.
  intros H. split; [now apply NullSafe_evalOverrides | apply render_overridesOf].
Qed.

(** A list of items with a JSON field each, read from a result that holds
    no list at all. *)
Lemma builder_lines_are_null_safe_example :
  NullSafe (evalOverrides literalRuntime
              (overridesOf (Object [("items[]", Object [("meta", Scalar AWSJSON)])])
                 (var "data") false parse)
              (bindVar "data" (VObject []) (fun _ => VUndefined)))
  /\ flat_map renderOverride
       (overridesOf (Object [("items[]", Object [("meta", Scalar AWSJSON)])])
          (var "data") false parse)
     = transformJsonFields (Object [("items[]", Object [("meta", Scalar AWSJSON)])])
         ("data" ++ "") parse.
Proof.
  apply (builder_lines_are_null_safe literalRuntime
           (Object [("items[]", Object [("meta", Scalar AWSJSON)])])
           (var "data") false parse (bindVar "data" (VObject []) (fun _ => VUndefined))).
  exists (VObject []). split; [reflexivity | right; reflexivity].
Defined.

(** X8.  The body that the output emitter writes never reads a property of
    null or undefined, whatever the output shape and whatever the result
    holds: the root field is guarded and every deeper access is optional.
    The body is the printed expression that is evaluated here. *)
Theorem output_body_is_null_safe (rt : Runtime) (outputType : OutputType) (env : Env) :
  NullSafe (evalOutputExpr rt (outputExpr outputType) env)
  /\ outputBody outputType
     = Ok (renderOutputExpr (outputExpr outputType) (typeName outputType)).
Proof. split; [apply NullSafe_outputExpr | apply outputBody_renders]. Qed.

(** ** What the emitted output function returns *)

Lemma mapM_In {A B : Type} (f : A -> result B) (l : list A) :
  forall bs a, mapM f l = Ok bs -> In a l -> exists b, f a = Ok b /\ In b bs.
Proof.
  induction l as [|x l IH]; intros bs a H Hin; [contradiction|].
  cbn [mapM] in H. apply bind_Ok in H as [b [Hb H]]. apply bind_Ok in H as [bs' [Hbs H]].
  injection H as <-. destruct Hin as [-> | Hin].
  - exists b. split; [exact Hb | now left].
  - destruct (IH bs' a Hbs Hin) as [b' [Hb' Hin']]. exists b'. split; [exact Hb' | now right].
Qed.

Lemma construct_NoDup_In (k : string) (v : value) (props src : list (string * value)) :
  NoDup (map fst props) -> In (k, v) props -> getProp (construct src props) k = v.
Proof.
  revert src. induction props as [|[j w] props IH]; intros src Hnd Hin; [contradiction|].
  cbn [map fst] in Hnd. apply NoDup_cons_iff in Hnd as [Hj Hnd].
  destruct Hin as [E | Hin].
  - injection E as -> ->.
    change (getProp (construct (objSet k v src) props) k = v).
    rewrite construct_other by exact Hj. apply objGet_objSet_same.
  - change (getProp (construct (objSet j w src) props) k = v). now apply IH.
Qed.

Lemma overrideNames_incl (children : list (string * Fields)) (p : Path) (safe : bool)
  (t : Transformer) (n : string) :
  In n (map overrideName (overridesOf (Object children) p safe t)) ->
  In n (map (fun e => fieldNameOf (fst e)) children).
Proof.
  intros H. apply in_map_iff in H as [o [<- Ho]].
  cbn [overridesOf] in Ho. apply in_flat_map in Ho as [[field v] [Hin Ho]].
  apply in_map_iff. exists (field, v). split; [|exact Hin]. cbn [fst].
  destruct v as [m | sub].
  - unfold scalarOverride in Ho. destruct (m =? AWSJSON); [|contradiction].
    now destruct Ho as [<- | []].
  - destruct (isArray field); now destruct Ho as [<- | []].
Qed.

Lemma overrideNames_NoDup (children : list (string * Fields)) (p : Path) (safe : bool)
  (t : Transformer) :
  NoDup (map (fun e => fieldNameOf (fst e)) children) ->
  NoDup (map overrideName (overridesOf (Object children) p safe t)).
Proof.
  induction children as [|[field v] cs IH]; intros H; [constructor|].
  cbn [map fst] in H. apply NoDup_cons_iff in H as [Hn H].
  assert (T : overridesOf (Object ((field, v) :: cs)) p safe t
              = (overridesOf (Object [(field, v)]) p safe t
                   ++ overridesOf (Object cs) p safe t)%list).
  { cbn [overridesOf flat_map]. now rewrite app_nil_r. }
  rewrite T, map_app.
  assert (S1 : map overrideName (overridesOf (Object [(field, v)]) p safe t) = []
               \/ map overrideName (overridesOf (Object [(field, v)]) p safe t)
                  = [fieldNameOf field]).
  { cbn [overridesOf flat_map]. rewrite app_nil_r. destruct v as [m | sub].
    - unfold scalarOverride. destruct (m =? AWSJSON); [now right | now left].
    - destruct (isArray field); now right. }
  destruct S1 as [-> | ->]; cbn [app].
  - now apply IH.
  - constructor; [|now apply IH].
    intros Hin. apply Hn. now apply (overrideNames_incl cs p safe t).
Qed.

Lemma json_leaf_override (children : list (string * Fields)) (p : Path) (safe : bool)
  (t : Transformer) (field : string) :
  In (field, Scalar AWSJSON) children ->
  In (OJson (fieldNameOf field) (extend p safe (fieldNameOf field)) t)
     (overridesOf (Object children) p safe t).
Proof.
  intros H. cbn [overridesOf]. apply in_flat_map.
  exists (field, Scalar AWSJSON). split; [exact H|].
  rewrite scalarOverride_marker. now left.
Qed.

(** The value that an evaluated list of entries holds for a JSON leaf. *)
Lemma evalOverrides_json_leaf (rt : Runtime) (children : list (string * Fields)) (p : Path)
  (safe : bool) (t : Transformer) (env : Env) (ps src : list (string * value))
  (field : string) :
  evalOverrides rt (overridesOf (Object children) p safe t) env = Ok ps ->
  In (field, Scalar AWSJSON) children ->
  NoDup (map (fun e => fieldNameOf (fst e)) children) ->
  exists v, evalPath env (extend p safe (fieldNameOf field)) = Ok v
            /\ evalGuarded rt t v = Ok (getProp (construct src ps) (fieldNameOf field)).
Proof.
  intros Hps Hin Hnd.
  destruct (mapM_In _ _ ps _ Hps (json_leaf_override children p safe t field Hin))
    as [kv [Hkv Hin']].
  cbn [evalOverride] in Hkv.
  apply bind_Ok in Hkv as [v [Hv Hkv]]. apply bind_Ok in Hkv as [w [Hw Hkv]].
  injection Hkv as <-. exists v. split; [exact Hv|].
  rewrite (construct_NoDup_In (fieldNameOf field) w ps src); [exact Hw | | exact Hin'].
  rewrite (evalOverrides_names rt _ env ps Hps). now apply overrideNames_NoDup.
Qed.

(** X9.  In the object that the emitted output function returns for a
    root object, every field that no line of the builder names has the
    value it had in the root object. *)
Theorem output_function_keeps_other_fields
  (rt : Runtime) (outputType : OutputType) (env : Env)
  (src : list (string * value)) (r : value) (k : string) :
  env (fieldName outputType) = VObject src ->
  evalOutputExpr rt (outputExpr outputType) env = Ok r ->
  ~ In k (map overrideName
            (overridesOf (orEmpty (fields outputType)) (var (fieldName outputType)) false parse)) ->
  getProp r k = objGet k src.
Proof. apply output_keeps_other_fields. Qed.

(** Example B: the field [id] next to the JSON field [payload]. *)
Lemma output_function_keeps_other_fields_example :
  getProp (VObject [("id", VString "n1"); ("payload", VObject [])]) "id"
  = objGet "id" [("id", VString "n1"); ("payload", VString "{}")].
Proof.
  apply (output_function_keeps_other_fields literalRuntime exampleB
           (bindVar "getNode" (VObject [("id", VString "n1"); ("payload", VString "{}")])
              (fun _ => VUndefined))).
  - reflexivity.
  - reflexivity.
  - cbn. intros [H | []]. discriminate.
Defined.

(** X10.  When the keys of the output shape decode to distinct field names
    and the root field is an object, the emitted output function returns,
    for every field marked AWSJSON at the top of the shape, the value of
    [field && JSON.parse(field)]: the parsed text, or the field itself
    when it is null, undefined or otherwise falsy. *)
Theorem output_function_parses_json_fields
  (rt : Runtime) (outputType : OutputType) (children : list (string * Fields))
  (field : string) (env : Env) (src : list (string * value)) (r : value) :
  fields outputType = defined (Object children) ->
  In (field, Scalar AWSJSON) children ->
  NoDup (map (fun e => fieldNameOf (fst e)) children) ->
  env (fieldName outputType) = VObject src ->
  evalOutputExpr rt (outputExpr outputType) env = Ok r ->
  evalGuarded rt parse (objGet (fieldNameOf field) src)
  = Ok (getProp r (fieldNameOf field)).
Proof.
  intros Hf Hin Hnd Hsrc H.
  assert (Hj : hasJsonFields (fields outputType) = true).
  { rewrite Hf. cbn [hasJsonFields falsy]. rewrite hasJsonFieldsIn_object.
    apply existsb_exists. exists (field, Scalar AWSJSON). split; [exact Hin | reflexivity]. }
  unfold outputExpr in H. rewrite Hj, Hf in H. cbn [orEmpty falsy evalOutputExpr] in H.
  rewrite Hsrc in H. cbn [truthy ownEntries] in H.
  apply bind_Ok in H as [ps [Hps H]]. injection H as <-.
  destruct (evalOverrides_json_leaf rt children _ false parse env ps src field Hps Hin Hnd)
    as [v [Hv Hg]].
  unfold evalPath in Hv. cbn [extend var root steps app evalSteps] in Hv.
  rewrite Hsrc in Hv. cbn [nullish getProp] in Hv. injection Hv as <-. exact Hg.
Qed.

(** Example B on a result whose [payload] is the text of an empty object. *)
Lemma output_function_parses_json_fields_example :
  evalGuarded literalRuntime parse (objGet "payload" [("id", VString "n1"); ("payload", VString "{}")])
  = Ok (getProp (VObject [("id", VString "n1"); ("payload", VObject [])]) "payload").
Proof.
  apply (output_function_parses_json_fields literalRuntime exampleB
           [("payload", Scalar AWSJSON)] "payload"
           (bindVar "getNode" (VObject [("id", VString "n1"); ("payload", VString "{}")])
              (fun _ => VUndefined))).
  - reflexivity.
  - now left.
  - repeat constructor. intros [].
  - reflexivity.
  - reflexivity.
Defined.

(** ** What the emitted input function returns *)

(** X11.  For a variables mapping that is not empty and in which no
    variable has a JSON field, the input emitter writes a function of the
    one parameter of the signature whose body is [variables as T], and the
    function returns its argument as it is. *)
Theorem input_without_json_passes_through
  (operationName operationVariablesTypes operationResultType : string)
  (hasRequiredVariables : bool) (vs : list (string * VariableType)) :
  vs <> [] ->
  existsb variableHasJson vs = false ->
  generateInputTransformer operationName operationVariablesTypes operationResultType
    hasRequiredVariables (defined vs)
  = Ok (nl ++ inputComment operationName operationVariablesTypes true ++ nl
          ++ "export const " ++ operationName ++ "Input = ("
          ++ generateQueryVariablesSignature hasRequiredVariables operationVariablesTypes
          ++ ") => " ++ ("variables as " ++ operationVariablesTypes) ++ ";")
  /\ forall (rt : Runtime) (variables : value),
       evalInputExpr rt (inputExpr vs) variables = Ok variables.
Proof.
  intros Hne Hj. destruct vs as [|v vs]; [congruence|].
  unfold generateInputTransformer, inputExpr. cbn [orThrow bind List.length Nat.ltb Nat.leb].
  rewrite Hj. split; reflexivity.
Qed.

(** One variable of a scalar type. *)
Lemma input_without_json_passes_through_example :
  generateInputTransformer "GetNode" "GetNodeQueryVariables" "GetNodeQuery" true
    (defined [("id", {| variableFields := undefined |})])
  = Ok (nl ++ inputComment "GetNode" "GetNodeQueryVariables" true ++ nl
          ++ "export const GetNodeInput = (variables: GetNodeQueryVariables) => "
          ++ "variables as GetNodeQueryVariables;")
  /\ forall (rt : Runtime) (variables : value),
       evalInputExpr rt (inputExpr [("id", {| variableFields := undefined |})]) variables
       = Ok variables.
Proof.
  apply (input_without_json_passes_through "GetNode" "GetNodeQueryVariables" "GetNodeQuery"
           true [("id", {| variableFields := undefined |})]).
  - discriminate.
  - reflexivity.
Defined.

Lemma inputExpr_names (rt : Runtime) (vars : list (string * list Override)) (env : Env) :
  forall props,
    mapM (fun v : string * list Override =>
            ps <- evalOverrides rt (snd v) env ;; Ok (fst v, construct [] ps)) vars
    = Ok props ->
    map fst props = map fst vars.
Proof.
  induction vars as [|v vars IH]; cbn [mapM]; intros props H.
  - now injection H as <-.
  - apply bind_Ok in H as [kv [Hkv H]]. apply bind_Ok in H as [kvs [Hkvs H]].
    injection H as <-. apply bind_Ok in Hkv as [ps [_ Hkv]]. injection Hkv as <-.
    cbn [map fst]. f_equal. now apply IH.
Qed.

Lemma map_fst_variableOverrides (vs : list (string * VariableType)) :
  map fst (map variableOverrides vs) = map fst vs.
Proof.
  rewrite map_map. apply map_ext. now intros [field variable].
Qed.

(** X12.  For a variables mapping that is not empty, the object that the
    emitted input function returns for a variables object holds, under
    every name but those of the variables with a JSON field, the value
    that the variables object holds: variables without JSON pass through
    the spread. *)
Theorem input_function_keeps_other_variables
  (rt : Runtime) (vs : list (string * VariableType))
  (src : list (string * value)) (r : value) (k : string) :
  vs <> [] ->
  evalInputExpr rt (inputExpr vs) (VObject src) = Ok r ->
  ~ In k (map fst (filter variableHasJson vs)) ->
  getProp r k = objGet k src.
Proof.
  intros Hne H Hk. destruct vs as [|v vs]; [congruence|].
  unfold inputExpr in H. cbn [List.length Nat.ltb Nat.leb] in H.
  destruct (existsb variableHasJson (v :: vs)); cbn [evalInputExpr] in H.
  - apply bind_Ok in H as [props [Hp H]]. injection H as <-.
    cbn [ownEntries]. apply construct_other.
    now rewrite (inputExpr_names rt _ _ props Hp), map_fst_variableOverrides.
  - now injection H as <-.
Qed.

(** The variable [limit] next to the variable [input] of the sample. *)
Lemma input_function_keeps_other_variables_example :
  getProp (VObject [("limit", VNumber 10);
                    ("input", VObject [("data", VString "{}")])]) "limit"
  = objGet "limit" [("limit", VNumber 10);
                    ("input", VObject [("id", VString "n1"); ("data", VObject [])])].
Proof.
  apply (input_function_keeps_other_variables literalRuntime
           (("limit", {| variableFields := undefined |}) :: inputWithJson)).
  - discriminate.
  - reflexivity.
  - cbn. intros [H | []]. discriminate.
Defined.

Lemma NoDup_map_fst_filter {A B : Type} (f : A * B -> bool) (l : list (A * B)) :
  NoDup (map fst l) -> NoDup (map fst (filter f l)).
Proof.
  induction l as [|a l IH]; intros H; [constructor|].
  cbn [map] in H. apply NoDup_cons_iff in H as [Ha H].
  cbn [filter]. destruct (f a); [|now apply IH].
  cbn [map]. constructor; [|now apply IH].
  intros Hin. apply Ha. apply in_map_iff in Hin as [x [E Hx]].
  apply filter_In in Hx as [Hx _]. apply in_map_iff. now exists x.
Qed.

Lemma evalSteps_two_dots (v w : value) (a b : string) :
  evalSteps v [(Dot, a); (Dot, b)] = Ok w -> w = getProp (getProp v a) b.
Proof.
  cbn [evalSteps]. destruct (nullish v); [discriminate|].
  destruct (nullish (getProp v a)); [discriminate|]. now intros [= <-].
Qed.

(** X13.  When the variables have distinct names and the keys of a
    variable's shape decode to distinct field names, the emitted input
    function, where it returns at all, returns for every field of that
    variable marked AWSJSON at the top of its shape the value of
    [field && JSON.stringify(field)]: the JSON text, or the field itself
    when it is null, undefined or otherwise falsy. *)
Theorem input_function_stringifies_json_fields
  (rt : Runtime) (vs : list (string * VariableType)) (field : string)
  (variable : VariableType) (children : list (string * Fields)) (key : string)
  (variables r : value) :
  In (field, variable) vs ->
  variableFields variable = defined (Object children) ->
  In (key, Scalar AWSJSON) children ->
  NoDup (map fst vs) ->
  NoDup (map (fun e => fieldNameOf (fst e)) children) ->
  evalInputExpr rt (inputExpr vs) variables = Ok r ->
  evalGuarded rt stringify (getProp (getProp variables field) (fieldNameOf key))
  = Ok (getProp (getProp r field) (fieldNameOf key)).
Proof.
  intros Hin Hf Hkey Hnv Hnk H.
  assert (Hj : variableHasJson (field, variable) = true).
  { unfold variableHasJson. cbn [snd]. rewrite Hf. cbn [hasJsonFields falsy].
    rewrite hasJsonFieldsIn_object. apply existsb_exists.
    exists (key, Scalar AWSJSON). split; [exact Hkey | reflexivity]. }
  assert (He : existsb variableHasJson vs = true).
  { apply existsb_exists. now exists (field, variable). }
  unfold inputExpr in H. rewrite He in H.
  destruct vs as [|v0 vs0]; [contradiction|].
  cbn [List.length Nat.ltb Nat.leb evalInputExpr] in H.
  apply bind_Ok in H as [props [Hp H]]. injection H as <-.
  assert (Hin' : In (variableOverrides (field, variable))
                    (map variableOverrides (filter variableHasJson (v0 :: vs0)))).
  { apply in_map. apply filter_In. auto. }
  destruct (mapM_In _ _ props _ Hp Hin') as [kv [Hkv Hkv']].
  apply bind_Ok in Hkv as [ps [Hps Hkv]]. injection Hkv as <-.
  cbn [variableOverrides fst snd] in *. rewrite Hf in Hps. cbn [orEmpty falsy] in Hps.
  rewrite (construct_NoDup_In field (construct [] ps) props (ownEntries variables));
    [ | | exact Hkv'].
  - destruct (evalOverrides_json_leaf rt children _ false stringify _ ps [] key Hps Hkey Hnk)
      as [v [Hv Hg]].
    unfold evalPath, bindVar in Hv.
    cbn [extend var root steps app] in Hv. rewrite String.eqb_refl in Hv.
    apply evalSteps_two_dots in Hv. now subst v.
  - rewrite (inputExpr_names rt _ _ props Hp), map_fst_variableOverrides.
    now apply NoDup_map_fst_filter.
Qed.

(** The sample variable [input] with an empty object as its [data]. *)
Lemma input_function_stringifies_json_fields_example :
  evalGuarded literalRuntime stringify
    (getProp (getProp (VObject [("input", VObject [("id", VString "n1"); ("data", VObject [])])])
                "input") "data")
  = Ok (getProp (getProp (VObject [("input", VObject [("data", VString "{}")])]) "input")
          "data").
Proof.
  apply (input_function_stringifies_json_fields literalRuntime inputWithJson "input"
           {| variableFields :=
                defined (Object [("id!", Scalar "ID"); ("data", Scalar "AWSJSON")]) |}
           [("id!", Scalar "ID"); ("data", Scalar "AWSJSON")] "data").
  - now left.
  - reflexivity.
  - right. now left.
  - repeat constructor. intros [].
  - repeat constructor; cbn; intuition discriminate.
  - reflexivity.
Defined.

(** ** The lines of a variable are joined by commas *)

Lemma jsonLine_EndsComma (name path : string) (t : Transformer) :
  EndsComma (jsonLine name path t).
Proof.
  destruct t; cbn [jsonLine].
  - exists (name ++ ": " ++ path ++ " && JSON.parse(" ++ path ++ " as unknown as string)").
    now rewrite !append_assoc.
  - exists (name ++ ": " ++ path ++ " && JSON.stringify(" ++ path
              ++ " as unknown as Record<string, any>)").
    now rewrite !append_assoc.
Qed.

Lemma spread_EndsComma (x : string) : EndsComma ("..." ++ x ++ ",").
Proof. now exists ("..." ++ x). Qed.

Lemma CommaBeforeLine_app_l (before lines : list string) :
  CommaBeforeLine lines -> CommaBeforeLine (before ++ lines).
Proof.
  intros [b [line [next [after [-> H]]]]].
  exists (before ++ b)%list, line, next, after. split; [now rewrite app_assoc | exact H].
Qed.

Lemma open_spread_comma (opening x closing : string) (inner rest : list string) :
  CommaBeforeLine (([opening; "..." ++ x ++ ","] ++ inner ++ [closing]) ++ rest).
Proof.
  destruct inner as [|next inner].
  - exists [opening], ("..." ++ x ++ ","), closing, rest.
    split; [reflexivity | apply spread_EndsComma].
  - exists [opening], ("..." ++ x ++ ","), next, ((inner ++ [closing]) ++ rest)%list.
    split; [reflexivity | apply spread_EndsComma].
Qed.

(** More than one line from the builder: a line that ends in a comma is
    followed by another line. *)
Lemma builder_comma_before_line (children : list (string * Fields)) (path : string)
  (t : Transformer) :
  2 <= List.length (transformJsonFields (Object children) path t) ->
  CommaBeforeLine (transformJsonFields (Object children) path t).
Proof.
  induction children as [|[field v] cs IH];
    [cbn [transformJsonFields flat_map List.length]; lia|].
  rewrite (transformJsonFields_cons field v cs). intros H.
  destruct v as [m | sub].
  - cbn [transformJsonFields flat_map] in *. rewrite app_nil_r in *.
    destruct (m =? AWSJSON) eqn:E.
    + apply String.eqb_eq in E. subst m. rewrite scalarLines_jsonLine in *.
      cbn [app List.length] in *.
      destruct (flat_map _ cs) as [|next after] eqn:F; [cbn [List.length] in H; lia|].
      exists [], (jsonLine (fieldNameOf field) (fieldPathOf path field) t), next, after.
      split; [reflexivity | apply jsonLine_EndsComma].
    + rewrite (scalarLines_other _ _ m t E) in *. cbn [app] in *.
      now apply (CommaBeforeLine_app_l []), IH.
  - clear H IH. cbn [transformJsonFields flat_map]. rewrite app_nil_r.
    destruct (isArray field); unfold arrayOpen, objectOpen; apply open_spread_comma.
Qed.

Lemma join_comma_before_line (lines : list string) :
  CommaBeforeLine lines -> includes (join "," lines) ",," = true.
Proof.
  intros [before [line [next [after [-> [body ->]]]]]]. unfold join.
  induction before as [|b before IH].
  - cbn [app String.concat]. rewrite append_assoc.
    apply includes_append_r. exact (includes_append_l ",," _ ",," eq_refl).
  - replace (String.concat "," ((b :: before) ++ (body ++ ",")%string :: next :: after)%list)
      with (b ++ ","
              ++ String.concat "," (before ++ (body ++ ",")%string :: next :: after)%list).
    + now apply includes_append_r, (includes_append_r ",").
    + destruct before; reflexivity.
Qed.

(** X14.  The input emitter joins the builder's lines of a variable with
    commas, not with line feeds: whenever the builder writes more than one
    line for a variable, the override that the emitter writes for it holds
    two commas in a row. *)
Theorem variable_override_doubles_commas (field : string) (variable : VariableType) :
  2 <= List.length (transformJsonFields (orEmpty (variableFields variable))
                      ("variables." ++ field) stringify) ->
  variableOverride (field, variable)
  = field ++ ": { "
      ++ join "," (transformJsonFields (orEmpty (variableFields variable))
                     ("variables." ++ field) stringify)
      ++ " },"
  /\ includes (variableOverride (field, variable)) ",," = true.
Proof.
  intros H. split; [reflexivity|].
  cbn [variableOverride]. apply includes_append_r, (includes_append_r ": { ").
  apply includes_append_l, join_comma_before_line.
  destruct (orEmpty (variableFields variable)) as [s | children].
  - rewrite transformJsonFields_scalar in H. cbn [List.length] in H. lia.
  - now apply builder_comma_before_line.
Qed.

(** A variable with two JSON fields. *)
Lemma variable_override_doubles_commas_example :
  variableOverride
    ("input", {| variableFields :=
                   defined (Object [("a", Scalar "AWSJSON"); ("b", Scalar "AWSJSON")]) |})
  = "input: { "
      ++ join ","
           ["a: variables.input.a && JSON.stringify(variables.input.a as unknown as Record<string, any>),";
            "b: variables.input.b && JSON.stringify(variables.input.b as unknown as Record<string, any>),"]
      ++ " },"
  /\ includes
       (variableOverride
          ("input", {| variableFields :=
                         defined (Object [("a", Scalar "AWSJSON"); ("b", Scalar "AWSJSON")]) |}))
       ",," = true.
Proof.
  apply (variable_override_doubles_commas "input"
           {| variableFields :=
                defined (Object [("a", Scalar "AWSJSON"); ("b", Scalar "AWSJSON")]) |}).
  cbn. lia.
Defined.

(** ** Nested objects and array elements keep their other fields *)

Lemma mapM_Forall2 {A B : Type} (f : A -> result B) (l : list A) :
  forall bs, mapM f l = Ok bs -> Forall2 (fun a b => f a = Ok b) l bs.
Proof.
  induction l as [|a l IH]; cbn [mapM]; intros bs H.
  - injection H as <-. constructor.
  - apply bind_Ok in H as [b [Hb H]]. apply bind_Ok in H as [bs' [Hbs H]].
    injection H as <-. constructor; [exact Hb | now apply IH].
Qed.

(** X15.  The entry that the builder writes for a nested object, at any
    depth, evaluates to an object in which every field that no inner entry
    names has the value it has in the object at the child path. *)
Theorem nested_object_keeps_other_fields
  (rt : Runtime) (field : string) (sub : list (string * Fields)) (p : Path) (safe : bool)
  (t : Transformer) (env : Env) (src kvs : list (string * value)) (k : string) :
  isArray field = false ->
  evalPath env (extend p safe (fieldNameOf field)) = Ok (VObject src) ->
  evalOverrides rt (overridesOf (Object [(field, Object sub)]) p safe t) env = Ok kvs ->
  ~ In k (map overrideName
            (overridesOf (Object sub) (extend p safe (fieldNameOf field)) true t)) ->
  exists r : value, kvs = [(fieldNameOf field, r)] /\ getProp r k = objGet k src.
Proof.
  intros Ha Hp H Hk. cbn [overridesOf flat_map] in H. rewrite Ha in H.
  unfold evalOverrides in H. cbn [app mapM evalOverride] in H. rewrite Hp in H.
  cbn [bind] in H. apply bind_Ok in H as [kv [Hkv H]]. injection H as <-.
  apply bind_Ok in Hkv as [props [Hprops Hkv]]. injection Hkv as <-.
  eexists. split; [reflexivity|]. cbn [ownEntries]. apply construct_other.
  now rewrite (evalOverrides_names rt _ env props Hprops).
Qed.

(** The nested object [owner] with a JSON field [profile] and a name. *)
Lemma nested_object_keeps_other_fields_example :
  exists r : value,
    [("owner", VObject [("name", VString "Ada"); ("profile", VObject [])])]
    = [("owner", r)]
    /\ getProp r "name" = objGet "name" [("name", VString "Ada"); ("profile", VString "{}")].
Proof.
  apply (nested_object_keeps_other_fields literalRuntime "owner"
           [("profile", Scalar AWSJSON)] (var "data") false parse
           (bindVar "data"
              (VObject [("owner", VObject [("name", VString "Ada"); ("profile", VString "{}")])])
              (fun _ => VUndefined))).
  - reflexivity.
  - reflexivity.
  - reflexivity.
  - cbn. intros [H | []]. discriminate.
Defined.

(** X16.  The entry that the builder writes for an array of objects, at
    any depth, evaluates to an array with one object for every element of
    the array at the child path, in order, in which every field that no
    inner entry names has the value it has in the element. *)
Theorem array_elements_keep_other_fields
  (rt : Runtime) (field : string) (sub : list (string * Fields)) (p : Path) (safe : bool)
  (t : Transformer) (env : Env) (elems : list value) (kvs : list (string * value)) :
  isArray field = true ->
  evalPath env (extend p safe (fieldNameOf field)) = Ok (VArray elems) ->
  evalOverrides rt (overridesOf (Object [(field, Object sub)]) p safe t) env = Ok kvs ->
  exists rs : list value,
    kvs = [(fieldNameOf field, VArray rs)]
    /\ Forall2 (fun elem r =>
                  forall k : string,
                    ~ In k (map overrideName
                              (overridesOf (Object sub) (var (fieldNameSingularOf field)) true t)) ->
                    getProp r k = objGet k (ownEntries elem))
               elems rs.
Proof.
  intros Ha Hp H. cbn [overridesOf flat_map] in H. rewrite Ha in H.
  unfold evalOverrides in H. cbn [app mapM evalOverride] in H. rewrite Hp in H.
  cbn [bind] in H. apply bind_Ok in H as [kv [Hkv H]]. injection H as <-.
  apply bind_Ok in Hkv as [rs [Hrs Hkv]]. injection Hkv as <-.
  exists rs. split; [reflexivity|].
  apply mapM_Forall2 in Hrs. clear Hp.
  induction Hrs as [|elem r elems' rs' Hr _ IH]; [constructor|].
  constructor; [|exact IH].
  intros k Hk. apply bind_Ok in Hr as [props [Hprops Hr]]. injection Hr as <-.
  apply construct_other.
  now rewrite (evalOverrides_names rt _ _ props Hprops).
Qed.

(** Example C on a list of two items, the second of which is null. *)
Lemma array_elements_keep_other_fields_example :
  exists rs : list value,
    [("items", VArray [VObject [("id", VString "i1"); ("meta", VObject [])];
                       VObject [("meta", VUndefined)]])]
    = [("items", VArray rs)]
    /\ Forall2 (fun elem r =>
                  forall k : string,
                    ~ In k (map overrideName
                              (overridesOf (Object [("meta", Scalar AWSJSON)]) (var "item")
                                 true parse)) ->
                    getProp r k = objGet k (ownEntries elem))
               [VObject [("id", VString "i1"); ("meta", VString "{}")]; VNull] rs.
Proof.
  apply (array_elements_keep_other_fields literalRuntime "items[]"
           [("meta", Scalar AWSJSON)] (var "data") false parse
           (bindVar "data"
              (VObject [("items",
                         VArray [VObject [("id", VString "i1"); ("meta", VString "{}")];
                                 VNull])])
              (fun _ => VUndefined))).
  - reflexivity.
  - reflexivity.
  - reflexivity.
Defined.

(** ** The flag for required variables *)

(** X17.  For a variables mapping that is not empty, [hasRequiredVariables]
    decides one thing only: whether the parameter of the emitted function
    is written [variables] or [variables?].  The documentation comment and
    the body after [=>] are the same for both values of the flag. *)
Theorem required_flag_only_marks_the_parameter
  (operationName operationVariablesTypes operationResultType : string)
  (vs : list (string * VariableType)) :
  vs <> [] ->
  exists body : string,
    forall hasRequiredVariables : bool,
      generateInputTransformer operationName operationVariablesTypes operationResultType
        hasRequiredVariables (defined vs)
      = Ok (nl ++ inputComment operationName operationVariablesTypes true ++ nl
              ++ "export const " ++ operationName ++ "Input = (variables"
              ++ (if hasRequiredVariables then "" else "?") ++ ": " ++ operationVariablesTypes
              ++ ") => " ++ body ++ ";").
Proof.
  intros Hne. destruct vs as [|v vs]; [congruence|].
  exists (if existsb variableHasJson (v :: vs)
          then "({...variables, "
                 ++ join nl (map variableOverride (filter variableHasJson (v :: vs)))
                 ++ " }) as " ++ operationVariablesTypes
          else "variables as " ++ operationVariablesTypes).
  intros hasRequiredVariables.
  unfold generateInputTransformer, generateQueryVariablesSignature.
  cbn [orThrow bind List.length Nat.ltb Nat.leb].
  do 2 f_equal. rewrite !append_assoc. reflexivity.
Qed.

(** The sample variable [input], required or not. *)
Lemma required_flag_only_marks_the_parameter_example :
  exists body : string,
    forall hasRequiredVariables : bool,
      generateInputTransformer "CreateNode" "CreateNodeMutationVariables" "CreateNodeMutation"
        hasRequiredVariables (defined inputWithJson)
      = Ok (nl ++ inputComment "CreateNode" "CreateNodeMutationVariables" true ++ nl
              ++ "export const CreateNodeInput = (variables"
              ++ (if hasRequiredVariables then "" else "?") ++ ": CreateNodeMutationVariables"
              ++ ") => " ++ body ++ ";").
Proof.
  apply (required_flag_only_marks_the_parameter "CreateNode" "CreateNodeMutationVariables"
           "CreateNodeMutation" inputWithJson).
  discriminate.
Defined.


(** ** An array child whose printed entry parses *)

(** X18.  For a child whose key holds the array marker and whose value is
    an object, the builder writes, after the lines of the earlier children
    and before those of the later ones: the opening line
    [name: path.name?.map((x) => ({], the spread [...x,] of the element,
    the lines of the child's own children built against [x?], and the
    closing line, where [x] is the field name without its last character.
    Where the printed entry parses (its names are property names, its path
    starts at a variable and [x], like every element variable below it, is
    a variable), the entry evaluates to undefined when the array at the
    child path is null or undefined, and otherwise it maps every element to
    a fresh object made of the element's own fields and the evaluated inner
    entries, without ever reading a property of null or undefined. *)
Theorem array_child_is_mapped_where_it_parses
  (field : string) (sub pre post : list (string * Fields)) (path : string) (t : Transformer) :
  isArray field = true ->
  transformJsonFields (Object (pre ++ (field, Object sub) :: post)) path t
  = (transformJsonFields (Object pre) path t
       ++ [(fieldNameOf field ++ ": " ++ (path ++ "." ++ fieldNameOf field) ++ "?.map(("
              ++ dropLast 1 (fieldNameOf field) ++ ") => ({")%string;
           ("..." ++ dropLast 1 (fieldNameOf field) ++ ",")%string]
       ++ transformJsonFields (Object sub) (dropLast 1 (fieldNameOf field) ++ "?")%string t
       ++ ["})),"]
       ++ transformJsonFields (Object post) path t)%list
  /\ forall (rt : Runtime) (env : Env) (p : Path) (safe : bool),
       let x := dropLast 1 (fieldNameOf field) in
       let inner := overridesOf (Object sub) (var x) true t in
       let entry := overridesOf (Object [(field, Object sub)]) p safe t in
       entry = [OArray (fieldNameOf field) (extend p safe (fieldNameOf field)) x inner]
       /\ flat_map renderOverride entry
          = transformJsonFields (Object [(field, Object sub)])
              (renderPath p ++ (if safe then "?" else "")) t
       /\ (forallb parsesOverride entry = true ->
           bindingIdentifier x = true
           /\ (forall arr : value,
                 evalPath env (extend p safe (fieldNameOf field)) = Ok arr ->
                 nullish arr = true ->
                 evalOverrides rt entry env = Ok [(fieldNameOf field, VUndefined)])
           /\ (forall elems : list value,
                 evalPath env (extend p safe (fieldNameOf field)) = Ok (VArray elems) ->
                 evalOverrides rt entry env
                 = (rs <- mapM (fun elem =>
                                  props <- evalOverrides rt inner (bindVar x elem env) ;;
                                  Ok (construct (ownEntries elem) props)) elems ;;
                    Ok [(fieldNameOf field, VArray rs)])
                 /\ NullSafe (evalOverrides rt entry env))).
Proof.
  intros Harr. split.
  - rewrite transformJsonFields_app, (transformJsonFields_cons field).
    cbn [transformJsonFields flat_map]. rewrite Harr.
    unfold arrayOpen, fieldNameSingularOf, fieldPathOf.
    rewrite app_nil_r. cbn [app]. now rewrite <- !app_assoc.
  - intros rt env p safe x inner entry.
    assert (E : entry
                = [OArray (fieldNameOf field) (extend p safe (fieldNameOf field)) x inner]).
    { unfold entry. cbn [overridesOf flat_map]. now rewrite Harr. }
    split; [exact E|]. split; [apply render_overridesOf|].
    intros Hparse. split.
    { rewrite E in Hparse. cbn [forallb parsesOverride] in Hparse.
      rewrite andb_true_r in Hparse.
      apply andb_true_iff in Hparse as [Hparse _].
      now apply andb_true_iff in Hparse as [_ Hparse]. }
    assert (M : forall elems : list value,
               evalPath env (extend p safe (fieldNameOf field)) = Ok (VArray elems) ->
               evalOverrides rt entry env
               = (rs <- mapM (fun elem =>
                                props <- evalOverrides rt inner (bindVar x elem env) ;;
                                Ok (construct (ownEntries elem) props)) elems ;;
                  Ok [(fieldNameOf field, VArray rs)])).
    { intros elems Hp. rewrite E. unfold evalOverrides.
      cbn [mapM evalOverride]. rewrite Hp. cbn [bind].
      destruct (mapM _ elems); reflexivity. }
    split.
    + intros arr Hp Hn. rewrite E. unfold evalOverrides.
      cbn [mapM evalOverride]. rewrite Hp. cbn [bind].
      destruct arr; try discriminate; reflexivity.
    + intros elems Hp. split; [now apply M|]. rewrite (M elems Hp).
      apply NullSafe_bind; [|discriminate].
      apply NullSafe_mapM, Forall_forall. intros elem _.
      apply NullSafe_bind; [|discriminate].
      apply NullSafe_evalOverrides, Ready_var.
Qed.

(** Example C of the specification: the key [items[]] over a JSON field
    [meta]; the element variable is [item], and a result without a list
    gives an undefined [items]. *)
Lemma array_child_is_mapped_where_it_parses_example :
  transformJsonFields (Object [("items[]", Object [("meta", Scalar "AWSJSON")])]) "data" parse
  = ["items: data.items?.map((item) => ({";
     "...item,";
     "meta: item?.meta && JSON.parse(item?.meta as unknown as string),";
     "})),"]
  /\ evalOverrides literalRuntime
       (overridesOf (Object [("items[]", Object [("meta", Scalar "AWSJSON")])]) (var "data")
          false parse)
       (bindVar "data" (VObject []) (fun _ => VUndefined))
     = Ok [("items", VUndefined)].
Proof.
  pose proof (array_child_is_mapped_where_it_parses "items[]" [("meta", Scalar "AWSJSON")]
                [] [] "data" parse eq_refl) as [T E].
  split; [exact T|].
  destruct (E literalRuntime (bindVar "data" (VObject []) (fun _ => VUndefined))
              (var "data") false) as [_ [_ P]].
  destruct (P eq_refl) as [_ [N _]].
  exact (N VUndefined eq_refl eq_refl).
Defined.
